(** * TeamWrite: the real-time session hub of [backend/server.py]

    A shallow embedding of [ConnectionManager] (the presence registry and the
    relay fan-out) and of [websocket_endpoint] (admission and the receive
    loop), followed by the properties of the hub that the specification
    states about them.

    Python dictionaries keep insertion order and the hub iterates over them,
    so a dictionary is an association list in insertion order.  Coroutines
    are functions from the registry to an [outcome]: the registry they leave
    behind, the frames and log lines they emitted, and the exception that
    left them, if any.  What the transport, the identity service, the
    document store and the [json] library answer is read from a [World]. *)

From Stdlib Require Import String Ascii List Bool Arith Lia.
Import ListNotations.

Local Open Scope string_scope.
Local Open Scope list_scope.

(* ================================================================= *)
(** ** Python dictionaries with string keys *)

Module PyDict.

Definition dict (V : Type) : Type := list (string * V).

(** [d.get(k)]; [None] stands for an absent key. *)
Fixpoint get {V} (d : dict V) (k : string) : option V :=
  match d with
  | [] => None
  | (k', v) :: d' => if String.eqb k k' then Some v else get d' k
  end.

(** [k in d] *)
Definition contains {V} (d : dict V) (k : string) : bool :=
  match get d k with Some _ => true | None => false end.

(** [d[k] = v]: an existing key keeps its position, a new key goes last. *)
Fixpoint set {V} (d : dict V) (k : string) (v : V) : dict V :=
  match d with
  | [] => [(k, v)]
  | (k', v') :: d' =>
      if String.eqb k k' then (k, v) :: d' else (k', v') :: set d' k v
  end.

(** [del d[k]] for a key that is present (every [del] of the source is
    guarded by an [in] test); the other entries keep their order. *)
Fixpoint del {V} (d : dict V) (k : string) : dict V :=
  match d with
  | [] => []
  | (k', v') :: d' =>
      if String.eqb k k' then del d' k else (k', v') :: del d' k
  end.

Definition keys {V} (d : dict V) : list string := map fst d.
Definition values {V} (d : dict V) : list V := map snd d.

(** [not d] *)
Definition is_empty {V} (d : dict V) : bool :=
  match d with [] => true | _ :: _ => false end.

(** The same dictionary with every value sent through [f]. *)
Definition map_values {V W} (f : V -> W) (d : dict V) : dict W :=
  map (fun kv => (fst kv, f (snd kv))) d.

End PyDict.

Import PyDict.

(* ================================================================= *)
(** ** Data model *)

(** A [WebSocket] object is known by its identity. *)
Definition WebSocket := nat.

(** The per-member dictionary built in [connect]. *)
Module UserInfo.
Record t : Type := Build
  { user_id : string; user_name : string; connected_at : string }.
End UserInfo.

(** What a client is sent: a relayed payload, forwarded as the text that was
    received, or [json.dumps({"type": "presence", "users": [...]})], kept as
    the list it serializes. *)
Inductive message : Type :=
| Raw (data : string)
| Presence (users : list UserInfo.t).

Inductive exn : Type :=
| RuntimeError          (* dictionary changed size during iteration *)
| KeyError
| JSONDecodeError
| HTTPException (status_code : nat) (detail : string)
| WebSocketDisconnect
| AttributeError        (* an attribute the module does not have *)
| TransportError        (* accept, send, receive or the document store failed *).

Inductive effect : Type :=
| Accept (websocket : WebSocket)
| SendText (websocket : WebSocket) (msg : message)
| Close (websocket : WebSocket) (code : nat) (reason : string)
| LogError (e : exn).

Record ConnectionManager : Type := Manager
  { active_connections : dict (dict WebSocket);   (* document_id -> {user_id: websocket} *)
    user_info : dict (dict UserInfo.t)            (* document_id -> {user_id: user_info} *) }.

(** [ConnectionManager.__init__] *)
Definition manager : ConnectionManager :=
  {| active_connections := []; user_info := [] |}.

(** Answers of everything outside the hub. *)
Inductive jwt_result : Type :=
| JwtPayload (user_id username : option string)   (* [payload.get] of both fields *)
| JwtExpired                                      (* jwt.ExpiredSignatureError *)
| JwtInvalid                                      (* any other decoding error *).

Inductive db_result : Type :=
| DbDocument (collaborators : list string)
| DbNone
| DbError.

Record World : Type := MkWorld
  { accept_ok : WebSocket -> bool;        (* [websocket.accept()] returns *)
    send_ok : WebSocket -> bool;          (* [websocket.send_text(_)] returns *)
    jwt_decode : string -> jwt_result;    (* [jwt.decode(token, JWT_SECRET, ...)] *)
    find_document : string -> db_result;  (* [db.documents.find_one({"id": _})] *)
    json_loads : string -> bool           (* [json.loads(_)] returns *) }.

(* ================================================================= *)
(** ** Coroutines *)

(** How a coroutine stands: it returned, an exception left it, or it is
    suspended in [receive_text] with no frame to read yet. *)
Inductive result : Type :=
| Returned
| Raised (e : exn)
| Awaiting.

Record outcome : Type := Outcome
  { state : ConnectionManager;
    effects : list effect;
    result_of : result }.

Definition coroutine : Type := ConnectionManager -> outcome.

Definition done : coroutine := fun self => Outcome self [] Returned.
Definition emit (e : effect) : coroutine := fun self => Outcome self [e] Returned.
Definition raise (e : exn) : coroutine := fun self => Outcome self [] (Raised e).
Definition await_frame : coroutine := fun self => Outcome self [] Awaiting.
Definition update (f : ConnectionManager -> ConnectionManager) : coroutine :=
  fun self => Outcome (f self) [] Returned.

(** [c1] and, once it has returned, [c2]. *)
Definition seq (c1 c2 : coroutine) : coroutine :=
  fun self =>
    let o1 := c1 self in
    match result_of o1 with
    | Returned =>
        let o2 := c2 (state o1) in
        Outcome (state o2) (effects o1 ++ effects o2) (result_of o2)
    | _ => o1
    end.

(** [try: c  except <catches> as e: handler e] *)
Definition try_except (c : coroutine) (catches : exn -> bool)
    (handler : exn -> coroutine) : coroutine :=
  fun self =>
    let o1 := c self in
    match result_of o1 with
    | Raised e =>
        if catches e then
          let o2 := handler e (state o1) in
          Outcome (state o2) (effects o1 ++ effects o2) (result_of o2)
        else o1
    | _ => o1
    end.

Notation "c1 ;; c2" := (seq c1 c2) (at level 61, right associativity).

(* ================================================================= *)
(** ** ConnectionManager *)

(** The room of a document, the empty dictionary when there is none. *)
Definition room {V} (d : dict (dict V)) (document_id : string) : dict V :=
  match get d document_id with Some r => r | None => [] end.

(** [if document_id in d and user_id in d[document_id]: del d[document_id][user_id]] *)
Definition del_member {V} (d : dict (dict V)) (document_id user_id : string)
  : dict (dict V) :=
  match get d document_id with
  | Some r =>
      if contains r user_id then set d document_id (del r user_id) else d
  | None => d
  end.

(** [if document_id in d and not d[document_id]: del d[document_id]] *)
Definition clean_room {V} (d : dict (dict V)) (document_id : string)
  : dict (dict V) :=
  match get d document_id with
  | Some r => if is_empty r then del d document_id else d
  | None => d
  end.

(** [ConnectionManager.disconnect] *)
Definition disconnect (document_id user_id : string) (self : ConnectionManager)
  : ConnectionManager :=
  let ac := del_member (active_connections self) document_id user_id in
  let ui := del_member (user_info self) document_id user_id in
  (* Clean empty document rooms *)
  {| active_connections := clean_room ac document_id;
     user_info := clean_room ui document_id |}.

(** The truth value of an optional string: [None] and the empty string are
    false. *)
Definition truthy (s : option string) : bool :=
  match s with
  | Some s => negb (String.eqb s EmptyString)
  | None => false
  end.

(** [exclude_user and user_id == exclude_user] *)
Definition excluded (exclude_user : option string) (user_id : string) : bool :=
  match exclude_user with
  | Some u => negb (String.eqb u EmptyString) && String.eqb user_id u
  | None => false
  end.

(** The [for] loop of [broadcast] over [self.active_connections[document_id].items()].

    [pending] is what the iterator has not yielded yet, [used] the size the
    dictionary had when the iterator was made and [live] the dictionary as it
    is now: the iterator holds the room object itself, which [disconnect]
    shrinks in place (and which stays reachable from the iterator after
    [disconnect] has dropped an emptied room from the registry).  Each step
    of the iterator first compares the two sizes, also when nothing is left
    to yield, and raises [RuntimeError] when they differ. *)
Fixpoint broadcast_loop (w : World) (msg : message)
    (document_id : string) (exclude_user : option string)
    (used : nat) (pending live : dict WebSocket) : coroutine :=
  if negb (Nat.eqb (length live) used) then raise RuntimeError
  else
    match pending with
    | [] => done
    | (user_id, websocket) :: rest =>
        if excluded exclude_user user_id
        then broadcast_loop w msg document_id exclude_user used rest live
        else if send_ok w websocket
        then emit (SendText websocket msg) ;;
             broadcast_loop w msg document_id exclude_user used rest live
        else (* Connection is broken, clean it up *)
             update (disconnect document_id user_id) ;;
             broadcast_loop w msg document_id exclude_user used rest
               (del live user_id)
    end.

(** [ConnectionManager.broadcast] *)
Definition broadcast (w : World) (msg : message) (document_id : string)
    (exclude_user : option string) : coroutine :=
  fun self =>
    match get (active_connections self) document_id with
    | Some r => broadcast_loop w msg document_id exclude_user (length r) r r self
    | None => done self
    end.

(** [ConnectionManager.broadcast_presence] *)
Definition broadcast_presence (w : World) (document_id : string) : coroutine :=
  fun self =>
    match get (user_info self) document_id with
    | Some infos =>
        let presence_data := Presence (values infos) in
        broadcast w presence_data document_id None self
    | None => done self
    end.

(** [ConnectionManager.send_personal_message] *)
Definition send_personal_message (w : World) (msg : message)
    (document_id user_id : string) : coroutine :=
  fun self =>
    match get (room (active_connections self) document_id) user_id with
    | Some websocket =>
        if send_ok w websocket then emit (SendText websocket msg) self
        else raise TransportError self
    | None => done self
    end.

(** The registry update of [connect], between [accept] and the presence
    broadcast.  [d[document_id][user_id] = v] raises [KeyError] when
    [document_id] is not a key of [d]. *)
Definition set_member {V} (d : dict (dict V)) (document_id user_id : string) (v : V)
  : option (dict (dict V)) :=
  match get d document_id with
  | Some r => Some (set d document_id (set r user_id v))
  | None => None
  end.

Definition register (websocket : WebSocket)
    (document_id user_id user_name now : string) : coroutine :=
  fun self =>
    let self1 :=
      if negb (contains (active_connections self) document_id)
      then {| active_connections := set (active_connections self) document_id [];
              user_info := set (user_info self) document_id [] |}
      else self in
    match set_member (active_connections self1) document_id user_id websocket with
    | None => raise KeyError self1
    | Some ac =>
        let self2 := {| active_connections := ac; user_info := user_info self1 |} in
        match set_member (user_info self2) document_id user_id
                (UserInfo.Build user_id user_name now) with
        | None => raise KeyError self2
        | Some ui => done {| active_connections := ac; user_info := ui |}
        end
    end.

(** [ConnectionManager.connect]; [now] is
    [datetime.now(timezone.utc).isoformat()]. *)
Definition connect (w : World) (websocket : WebSocket)
    (document_id user_id user_name now : string) : coroutine :=
  (if accept_ok w websocket then emit (Accept websocket) else raise TransportError) ;;
  register websocket document_id user_id user_name now ;;
  (* Notify others about new user *)
  broadcast_presence w document_id.

(* ================================================================= *)
(** ** The [json] library: which texts [json.loads] accepts

    The decoder of the Python standard library in its default (strict) mode,
    over texts of one-byte characters: whitespace is space, tab, line feed
    and carriage return; [NaN], [Infinity] and [-Infinity] are accepted;
    nothing but whitespace may follow the value.  Only acceptance matters to
    the hub, which discards the decoded value.  The interpreter's limits on
    nesting depth and on the length of an integer literal are not modelled:
    the recognizer serves to run the hub on given texts, and the properties
    of the hub are stated for whatever [json_loads] the world has. *)

Module Json.

Definition code (c : ascii) : nat := nat_of_ascii c.
Definition chr (c : ascii) (n : nat) : bool := Nat.eqb (code c) n.

Definition is_ws (c : ascii) : bool := chr c 32 || chr c 9 || chr c 10 || chr c 13.
Definition between (lo hi : nat) (c : ascii) : bool :=
  Nat.leb lo (code c) && Nat.leb (code c) hi.
Definition is_digit (c : ascii) : bool := between 48 57 c.
Definition is_hex (c : ascii) : bool :=
  is_digit c || between 65 70 c || between 97 102 c.
(** the characters that may follow a backslash, [u] apart:
    double quote, backslash, slash, b, f, n, r, t *)
Definition is_escape (c : ascii) : bool :=
  existsb (chr c) [34; 92; 47; 98; 102; 110; 114; 116].

Fixpoint strip_prefix (p s : string) : option string :=
  match p, s with
  | EmptyString, _ => Some s
  | String c p', String c' s' =>
      if Ascii.eqb c c' then strip_prefix p' s' else None
  | String _ _, EmptyString => None
  end.

Fixpoint skip_ws (s : string) : string :=
  match s with
  | String c s' => if is_ws c then skip_ws s' else s
  | EmptyString => s
  end.

(** How many digits lead [s], and what follows them. *)
Fixpoint digits (s : string) : nat * string :=
  match s with
  | String c s' =>
      if is_digit c then let (n, r) := digits s' in (S n, r) else (0, s)
  | EmptyString => (0, s)
  end.

(** The optional fraction: a dot and at least one digit. *)
Definition frac (s : string) : string :=
  match s with
  | String c r =>
      if chr c 46 then match digits r with (0, _) => s | (_, r') => r' end
      else s
  | EmptyString => s
  end.

(** The optional exponent: e or E, an optional sign, at least one digit. *)
Definition expo (s : string) : string :=
  match s with
  | String c r =>
      if chr c 101 || chr c 69 then
        let r1 := match r with
                  | String sg r' => if chr sg 45 || chr sg 43 then r' else r
                  | EmptyString => r
                  end in
        match digits r1 with (0, _) => s | (_, r') => r' end
      else s
  | EmptyString => s
  end.

(** NUMBER_RE: an optional minus, then a zero or a digit string that does
    not start with zero, then the optional fraction and exponent. *)
Definition number (s : string) : option string :=
  let s1 := match s with
            | String c r => if chr c 45 then r else s
            | EmptyString => s
            end in
  match s1 with
  | String c r =>
      if chr c 48 then Some (expo (frac r))
      else if is_digit c then Some (expo (frac (snd (digits r))))
      else None
  | EmptyString => None
  end.

(** A string literal after its opening quote. *)
Fixpoint scanstring (s : string) : option string :=
  match s with
  | EmptyString => None
  | String c r =>
      if chr c 34 then Some r
      else if chr c 92 then
        match r with
        | String e r' =>
            if chr e 117 then
              match r' with
              | String h1 (String h2 (String h3 (String h4 r''))) =>
                  if is_hex h1 && is_hex h2 && is_hex h3 && is_hex h4
                  then scanstring r'' else None
              | _ => None
              end
            else if is_escape e then scanstring r' else None
        | EmptyString => None
        end
      else if Nat.ltb (code c) 32 then None
      else scanstring r
  end.

Definition first_of (l : list (option string)) : option string :=
  fold_right (fun o acc => match o with Some r => Some r | None => acc end) None l.

(** One value at the head of [s]; [members] reads an object from its first
    property name on, [elements] an array from its first element on. *)
Fixpoint scan_once (fuel : nat) (s : string) : option string :=
  match fuel with
  | 0 => None
  | S fuel =>
      match s with
      | EmptyString => None
      | String c r =>
          if chr c 34 then scanstring r
          else if chr c 123 then
            match skip_ws r with
            | String c' r' => if chr c' 125 then Some r' else members fuel (String c' r')
            | EmptyString => None
            end
          else if chr c 91 then
            match skip_ws r with
            | String c' r' => if chr c' 93 then Some r' else elements fuel (String c' r')
            | EmptyString => None
            end
          else
            first_of [strip_prefix "null" s; strip_prefix "true" s;
                      strip_prefix "false" s; number s; strip_prefix "NaN" s;
                      strip_prefix "Infinity" s; strip_prefix "-Infinity" s]
      end
  end
with members (fuel : nat) (s : string) : option string :=
  match fuel with
  | 0 => None
  | S fuel =>
      match s with
      | String q r =>
          if chr q 34 then
            match scanstring r with
            | Some r1 =>
                match skip_ws r1 with
                | String colon r2 =>
                    if chr colon 58 then
                      match scan_once fuel (skip_ws r2) with
                      | Some r3 =>
                          match skip_ws r3 with
                          | String c r4 =>
                              if chr c 125 then Some r4
                              else if chr c 44 then members fuel (skip_ws r4)
                              else None
                          | EmptyString => None
                          end
                      | None => None
                      end
                    else None
                | EmptyString => None
                end
            | None => None
            end
          else None
      | EmptyString => None
      end
  end
with elements (fuel : nat) (s : string) : option string :=
  match fuel with
  | 0 => None
  | S fuel =>
      match scan_once fuel s with
      | Some r1 =>
          match skip_ws r1 with
          | String c r2 =>
              if chr c 93 then Some r2
              else if chr c 44 then elements fuel (skip_ws r2)
              else None
          | EmptyString => None
          end
      | None => None
      end
  end.

(** [json.loads s] returns. *)
Definition loads (s : string) : bool :=
  match scan_once (2 * String.length s + 2) (skip_ws s) with
  | Some r => match skip_ws r with EmptyString => true | _ => false end
  | None => false
  end.

End Json.

(* ================================================================= *)
(** ** The websocket endpoint *)

(** What [websocket.receive_text()] does next: it returns a text frame,
    raises [WebSocketDisconnect], or fails otherwise. *)
Inductive frame : Type :=
| Text (data : string)
| Disconnect
| Broken.

(** [decode_jwt_token], with the two fields the endpoint reads.  The second
    handler is written [except jwt.JWTError]; the [jwt] package whose
    [encode], [decode] and [ExpiredSignatureError] the file uses has no
    attribute of that name, so for an error that is not an expiry the
    handler's own expression raises [AttributeError] and the 401 below it is
    never reached. *)
Definition decode_jwt_token (w : World) (token : string)
  : (option string * option string) + exn :=
  match jwt_decode w token with
  | JwtPayload user_id username => inl (user_id, username)
  | JwtExpired => inr (HTTPException 401 "Token expired")
  | JwtInvalid => inr AttributeError
  end.

Definition text_of (s : option string) : string :=
  match s with Some s => s | None => EmptyString end.

(** One turn of [while True]. *)
Definition receive_one (w : World) (document_id user_id : string) (f : frame)
  : coroutine :=
  match f with
  | Text data =>
      (* message_data = json.loads(data) *)
      (if json_loads w data then done else raise JSONDecodeError) ;;
      (* Broadcast to all other users in the document *)
      broadcast w (Raw data) document_id (Some user_id)
  | Disconnect => raise WebSocketDisconnect
  | Broken => raise TransportError
  end.

(** [while True] over the frames that arrive; when they are used up the
    coroutine is suspended in [receive_text]. *)
Fixpoint receive_loop (w : World) (document_id user_id : string)
    (inbound : list frame) : coroutine :=
  match inbound with
  | [] => await_frame
  | f :: rest =>
      receive_one w document_id user_id f ;;
      receive_loop w document_id user_id rest
  end.

Definition is_disconnect (e : exn) : bool :=
  match e with WebSocketDisconnect => true | _ => false end.

(** The inner [try] statement: the receive loop and its
    [except WebSocketDisconnect] clause. *)
Definition serve (w : World) (document_id user_id : string)
    (inbound : list frame) : coroutine :=
  try_except (receive_loop w document_id user_id inbound) is_disconnect
    (fun _ =>
       update (disconnect document_id user_id) ;;
       broadcast_presence w document_id).

(** The outer [try] statement around [body]: its [except Exception] clause. *)
Definition guarded (websocket : WebSocket) (body : coroutine) : coroutine :=
  try_except body (fun _ => true)
    (fun e => emit (LogError e) ;; emit (Close websocket 1011 "Internal error")).

(** [websocket_endpoint], run on the frames [inbound]. *)
Definition websocket_endpoint (w : World) (websocket : WebSocket)
    (document_id : string) (token : option string) (now : string)
    (inbound : list frame) : coroutine :=
  if negb (truthy token) then emit (Close websocket 1008 "Token required")
  else
    guarded websocket
      (* Verify token *)
      match decode_jwt_token w (text_of token) with
      | inr e => raise e
      | inl (user_id, username) =>
          if negb (truthy user_id) || negb (truthy username)
          then emit (Close websocket 1008 "Invalid token")
          else
            (* Verify document access *)
            match find_document w document_id with
            | DbError => raise TransportError
            | DbNone => emit (Close websocket 1008 "Access denied")
            | DbDocument collaborators =>
                if negb (existsb (String.eqb (text_of user_id)) collaborators)
                then emit (Close websocket 1008 "Access denied")
                else
                  (* Connect user *)
                  connect w websocket document_id (text_of user_id)
                    (text_of username) now ;;
                  serve w document_id (text_of user_id) inbound
            end
      end.

(** The rest of the endpoint for a connection that [connect] has made
    Active: the two [try] statements around the receive loop. *)
Definition session (w : World) (websocket : WebSocket)
    (document_id user_id : string) (inbound : list frame) : coroutine :=
  guarded websocket (serve w document_id user_id inbound).

(* ================================================================= *)
(** ** The registry seen from outside *)

(** The presence snapshot of a room: what [broadcast_presence] serializes,
    and the empty list for a room that does not exist. *)
Definition snapshot (self : ConnectionManager) (document_id : string)
  : list UserInfo.t :=
  values (room (user_info self) document_id).

(** The user identifiers of a room of the connection map, in map order. *)
Definition members (self : ConnectionManager) (document_id : string)
  : list string :=
  keys (room (active_connections self) document_id).

(** The channel registered for a user. *)
Definition channel (self : ConnectionManager) (document_id user_id : string)
  : option WebSocket :=
  get (room (active_connections self) document_id) user_id.

(** The channels of everyone in the room but [user_id], in map order. *)
Definition others (self : ConnectionManager) (document_id user_id : string)
  : list WebSocket :=
  values (filter (fun kv => negb (String.eqb (fst kv) user_id))
            (room (active_connections self) document_id)).

(** [d[document_id][user_id] = v] on a room that is created when missing. *)
Definition add_member {V} (d : dict (dict V)) (document_id user_id : string) (v : V)
  : dict (dict V) :=
  set d document_id (set (room d document_id) user_id v).

(** The channels [broadcast] means to write to, in iteration order. *)
Definition targets (exclude_user : option string) (r : dict WebSocket)
  : list WebSocket :=
  values (filter (fun kv => negb (excluded exclude_user (fst kv))) r).

(** The registry once [connect] has filed the new member. *)
Definition registered (websocket : WebSocket)
    (document_id user_id user_name now : string) (self : ConnectionManager)
  : ConnectionManager :=
  {| active_connections :=
       add_member (active_connections self) document_id user_id websocket;
     user_info :=
       add_member (user_info self) document_id user_id
         (UserInfo.Build user_id user_name now) |}.

(** What the operations do to the list of keys. *)
Definition mem_key (k : string) (l : list string) : bool := existsb (String.eqb k) l.
Definition add_key (l : list string) (k : string) : list string :=
  if mem_key k l then l else l ++ [k].
Definition del_key (l : list string) (k : string) : list string :=
  filter (fun x => negb (String.eqb k x)) l.

(** *** Well-formed registries *)

(** A registry with its values forgotten: the documents and, for each, the
    user identifiers, both in order. *)
Definition erase {V} (d : dict (dict V)) : dict (dict unit) :=
  map_values (map_values (fun _ => tt)) d.

(** The two maps describe the same membership. *)
Definition in_sync (self : ConnectionManager) : Prop :=
  erase (active_connections self) = erase (user_info self).

(** The documents are listed once, and a room holds each user once and is
    not empty. *)
Definition rooms_ok {V} (d : dict (dict V)) : Prop :=
  NoDup (keys d)
  /\ forall document_id r, get d document_id = Some r -> NoDup (keys r) /\ r <> [].

(** Every record of [user_info] is filed under its own [user_id]. *)
Definition infos_keyed (d : dict (dict UserInfo.t)) : Prop :=
  forall document_id r,
    get d document_id = Some r ->
    Forall (fun e => UserInfo.user_id (snd e) = fst e) r.

Record well_formed (self : ConnectionManager) : Prop := WellFormed
  { wf_sync : in_sync self;
    wf_rooms : rooms_ok (active_connections self);
    wf_keyed : infos_keyed (user_info self) }.

(** A coroutine that keeps a property of the registry, however it ends. *)
Definition preserves (P : ConnectionManager -> Prop) (c : coroutine) : Prop :=
  forall self, P self -> P (state (c self)).

(** A room with no member, as a test on the registry. *)
Definition has_empty_room {V} (d : dict (dict V)) : bool :=
  existsb (fun kv => is_empty (snd kv)) d.

(** *** Histories of the hub *)

(** The calls that reach the registry. *)
Inductive operation : Type :=
| Op_connect (w : World) (websocket : WebSocket)
    (document_id user_id user_name now : string)
| Op_disconnect (document_id user_id : string)
| Op_broadcast (w : World) (msg : message) (document_id : string)
    (exclude_user : option string)
| Op_broadcast_presence (w : World) (document_id : string)
| Op_endpoint (w : World) (websocket : WebSocket) (document_id : string)
    (token : option string) (now : string) (inbound : list frame).

Definition perform (op : operation) : coroutine :=
  match op with
  | Op_connect w websocket document_id user_id user_name now =>
      connect w websocket document_id user_id user_name now
  | Op_disconnect document_id user_id => update (disconnect document_id user_id)
  | Op_broadcast w msg document_id exclude_user =>
      broadcast w msg document_id exclude_user
  | Op_broadcast_presence w document_id => broadcast_presence w document_id
  | Op_endpoint w websocket document_id token now inbound =>
      websocket_endpoint w websocket document_id token now inbound
  end.

(** The registry after a history, whatever way each call ended. *)
Definition after (history : list operation) : ConnectionManager :=
  fold_left (fun self op => state (perform op self)) history manager.

(** Joins and leaves of one room. *)
Inductive room_op : Type :=
| Join (websocket : WebSocket) (user_id user_name now : string)
| Leave (user_id : string).

Definition run_room_op (w : World) (document_id : string) (op : room_op)
  : coroutine :=
  match op with
  | Join websocket user_id user_name now =>
      connect w websocket document_id user_id user_name now
  | Leave user_id => update (disconnect document_id user_id)
  end.

Definition run_room_ops (w : World) (document_id : string) (ops : list room_op)
    (self : ConnectionManager) : ConnectionManager :=
  fold_left (fun self op => state (run_room_op w document_id op self)) ops self.

(** In the words of the specification: [user_id] joined and has not since
    left. *)
Definition joined_not_left (ops : list room_op) (user_id : string) : Prop :=
  exists before websocket user_name now since,
    ops = before ++ Join websocket user_id user_name now :: since
    /\ ~ In (Leave user_id) since.

(** The same as a computation on the list of members. *)
Definition room_op_keys (l : list string) (op : room_op) : list string :=
  match op with
  | Join _ user_id _ _ => add_key l user_id
  | Leave user_id => del_key l user_id
  end.


(** *** Worlds to run the hub in *)

(** Every handshake and every send succeeds save the sends to [broken];
    the identity service knows three tokens and the store one document. *)
Definition demo_world (broken : list WebSocket) : World :=
  {| accept_ok := fun _ => true;
     send_ok := fun websocket => negb (existsb (Nat.eqb websocket) broken);
     jwt_decode := fun token =>
       if String.eqb token "alice" then JwtPayload (Some "u1") (Some "Alice")
       else if String.eqb token "bob" then JwtPayload (Some "u2") (Some "Bob")
       else if String.eqb token "carol" then JwtPayload (Some "u3") (Some "Carol")
       else if String.eqb token "mallory" then JwtPayload (Some "u9") (Some "Mallory")
       else if String.eqb token "nameless" then JwtPayload (Some "u1") None
       else if String.eqb token "stale" then JwtExpired
       else JwtInvalid;
     find_document := fun document_id =>
       if String.eqb document_id "D" then DbDocument ["u1"; "u2"; "u3"]
       else if String.eqb document_id "down" then DbError
       else DbNone;
     json_loads := Json.loads |}.

(** Room D once u1 has joined on channel 1. *)
Definition alice_in_D : ConnectionManager :=
  registered 1 "D" "u1" "Alice" "t1" manager.

(** Room D with u1, u2 and u3 on the channels 1, 2 and 3. *)
Definition three_in_D : ConnectionManager :=
  {| active_connections := [("D", [("u1", 1); ("u2", 2); ("u3", 3)])];
     user_info :=
       [("D", [("u1", UserInfo.Build "u1" "Alice" "t1");
               ("u2", UserInfo.Build "u2" "Bob" "t2");
               ("u3", UserInfo.Build "u3" "Carol" "t3")])] |}.

(* ================================================================= *)
(** ** The REST routes and the database

    A MongoDB collection is the list of its documents in natural order:
    [find_one] answers the first match, [insert_one] appends, [update_one]
    and [delete_one] act on the first match, and [find(...).to_list(n)]
    answers the first [n] matches.  A [datetime] is a number of seconds.
    What [uuid4], the clock and [bcrypt.gensalt] answer is an argument of
    the route that asks for it; [bcrypt] and [jwt.encode] are read from a
    [Crypto].  A route answers its value or the [HTTPException] it raises. *)

Module User.
Record t : Type := Build
  { id : string; username : string; created_at : nat }.
End User.

Module Document.
Record t : Type := Build
  { id : string;
    title : string;
    content : string;
    created_by : string;
    created_at : nat;
    updated_at : nat;
    collaborators : list string }.
End Document.

Module Token.
Record t : Type := Build
  { access_token : string; token_type : string; user : User.t }.
End Token.

(** [db.users] holds [user.dict()] with its [password_hash]. *)
Record Database : Type := Db
  { users : list (User.t * string);
    documents : list Document.t }.

Record Crypto : Type := MkCrypto
  { hashpw : string -> string -> string;          (* [bcrypt.hashpw(password, salt)] *)
    checkpw : string -> string -> bool;           (* [bcrypt.checkpw(password, hashed)] *)
    jwt_encode : string -> string -> nat -> string (* [jwt.encode] of user_id, username, exp *) }.

Module Api.

Definition JWT_EXPIRATION_HOURS : nat := 24.

(** [collection.update_one(filter, {"$set": ...})] *)
Fixpoint update_one {A} (matches : A -> bool) (set_fields : A -> A) (l : list A)
  : list A :=
  match l with
  | [] => []
  | x :: l' =>
      if matches x then set_fields x :: l' else x :: update_one matches set_fields l'
  end.

(** [collection.delete_one(filter)] *)
Fixpoint delete_one {A} (matches : A -> bool) (l : list A) : list A :=
  match l with
  | [] => []
  | x :: l' => if matches x then l' else x :: delete_one matches l'
  end.

(** The filters the routes use. *)
Definition has_id (document_id : string) (d : Document.t) : bool :=
  String.eqb (Document.id d) document_id.
Definition has_username (username : string) (u : User.t * string) : bool :=
  String.eqb (User.username (fst u)) username.
Definition has_user_id (user_id : string) (u : User.t * string) : bool :=
  String.eqb (User.id (fst u)) user_id.
Definition has_collaborator (user_id : string) (d : Document.t) : bool :=
  existsb (String.eqb user_id) (Document.collaborators d).

(** [hash_password], with the salt [bcrypt.gensalt()] drew. *)
Definition hash_password (c : Crypto) (password salt : string) : string :=
  hashpw c password salt.

(** [verify_password] *)
Definition verify_password (c : Crypto) (password hashed : string) : bool :=
  checkpw c password hashed.

(** [create_jwt_token], called with a user's id and name at time [now]. *)
Definition create_jwt_token (c : Crypto) (user_id username : string) (now : nat)
  : string :=
  jwt_encode c user_id username (now + JWT_EXPIRATION_HOURS * 3600).

(** [get_current_user], from the bearer token. *)
Definition get_current_user (w : World) (token : string) (db : Database)
  : User.t + exn :=
  match decode_jwt_token w token with
  | inr e => inr e
  | inl (user_id, _) =>
      if negb (truthy user_id)
      then inr (HTTPException 401 "Invalid token payload")
      else
        match find (has_user_id (text_of user_id)) (users db) with
        | None => inr (HTTPException 401 "User not found")
        | Some user => inl (fst user)
        end
  end.

(** [register]; [new_id] is the user's [uuid4], [created] and [issued] the
    clock when the user is built and when the token is. *)
Definition register (c : Crypto) (username password new_id salt : string)
    (created issued : nat) (db : Database) : Database * (Token.t + exn) :=
  (* Check if user exists *)
  match find (has_username username) (users db) with
  | Some _ => (db, inr (HTTPException 400 "Username already exists"))
  | None =>
      (* Create new user *)
      let hashed_password := hash_password c password salt in
      let user := User.Build new_id username created in
      ({| users := users db ++ [(user, hashed_password)];
          documents := documents db |},
       (* Create JWT token *)
       inl (Token.Build (create_jwt_token c (User.id user) (User.username user) issued)
              "bearer" user))
  end.

(** [login] *)
Definition login (c : Crypto) (username password : string) (issued : nat)
    (db : Database) : Token.t + exn :=
  match find (has_username username) (users db) with
  | Some user_doc =>
      if verify_password c password (snd user_doc)
      then
        let user := fst user_doc in
        inl (Token.Build (create_jwt_token c (User.id user) (User.username user) issued)
               "bearer" user)
      else inr (HTTPException 401 "Invalid username or password")
  | None => inr (HTTPException 401 "Invalid username or password")
  end.

(** [get_me] *)
Definition get_me (current_user : User.t) : User.t := current_user.

(** [create_document]; [created] and [updated] are the two readings of the
    clock that fill [created_at] and [updated_at]. *)
Definition create_document (title : string) (current_user : User.t)
    (new_id : string) (created updated : nat) (db : Database)
  : Database * Document.t :=
  let document :=
    Document.Build new_id title EmptyString (User.id current_user)
      created updated [User.id current_user] in
  ({| users := users db; documents := documents db ++ [document] |}, document).

(** [get_documents] *)
Definition get_documents (current_user : User.t) (db : Database)
  : list Document.t :=
  firstn 100 (filter (has_collaborator (User.id current_user)) (documents db)).

(** [get_document] *)
Definition get_document (document_id : string) (current_user : User.t)
    (db : Database) : Document.t + exn :=
  match find (has_id document_id) (documents db) with
  | None => inr (HTTPException 404 "Document not found")
  | Some document =>
      (* Check if user has access *)
      if negb (has_collaborator (User.id current_user) document)
      then inr (HTTPException 403 "Access denied")
      else inl document
  end.

(** The [$set] of [update_document]: the fields that are not [None], and
    [updated_at]. *)
Definition set_fields (title content : option string) (now : nat) (d : Document.t)
  : Document.t :=
  Document.Build (Document.id d)
    (match title with Some t => t | None => Document.title d end)
    (match content with Some c => c | None => Document.content d end)
    (Document.created_by d) (Document.created_at d) now (Document.collaborators d).

(** [update_document].  Building the answer from a document that is no
    longer found fails, which the framework answers with status 500. *)
Definition update_document (document_id : string) (title content : option string)
    (current_user : User.t) (now : nat) (db : Database)
  : Database * (Document.t + exn) :=
  match find (has_id document_id) (documents db) with
  | None => (db, inr (HTTPException 404 "Document not found"))
  | Some document =>
      (* Check if user has access *)
      if negb (has_collaborator (User.id current_user) document)
      then (db, inr (HTTPException 403 "Access denied"))
      else
        let db' :=
          {| users := users db;
             documents :=
               update_one (has_id document_id) (set_fields title content now)
                 (documents db) |} in
        match find (has_id document_id) (documents db') with
        | Some updated_document => (db', inl updated_document)
        | None => (db', inr (HTTPException 500 "Internal Server Error"))
        end
  end.

(** [delete_document] *)
Definition delete_document (document_id : string) (current_user : User.t)
    (db : Database) : Database * (string + exn) :=
  match find (has_id document_id) (documents db) with
  | None => (db, inr (HTTPException 404 "Document not found"))
  | Some document =>
      (* Only creator can delete *)
      if negb (String.eqb (Document.created_by document) (User.id current_user))
      then (db, inr (HTTPException 403 "Only creator can delete document"))
      else
        ({| users := users db;
            documents := delete_one (has_id document_id) (documents db) |},
         inl "Document deleted successfully")
  end.

(** The calls that write to the database. *)
Inductive request : Type :=
| Register (c : Crypto) (username password new_id salt : string) (created issued : nat)
| CreateDocument (title : string) (current_user : User.t) (new_id : string)
    (created updated : nat)
| UpdateDocument (document_id : string) (title content : option string)
    (current_user : User.t) (now : nat)
| DeleteDocument (document_id : string) (current_user : User.t).

Definition handle (r : request) (db : Database) : Database :=
  match r with
  | Register c username password new_id salt created issued =>
      fst (register c username password new_id salt created issued db)
  | CreateDocument title current_user new_id created updated =>
      fst (create_document title current_user new_id created updated db)
  | UpdateDocument document_id title content current_user now =>
      fst (update_document document_id title content current_user now db)
  | DeleteDocument document_id current_user =>
      fst (delete_document document_id current_user db)
  end.

Definition empty : Database := {| users := []; documents := [] |}.

(** The database after a history of calls. *)
Definition db_after (history : list request) : Database :=
  fold_left (fun db r => handle r db) history empty.

(** What the document store answers the websocket endpoint. *)
Definition store_answer (db : Database) (document_id : string) : db_result :=
  match find (has_id document_id) (documents db) with
  | Some document => DbDocument (Document.collaborators document)
  | None => DbNone
  end.

(** The world of [demo_world] with no broken channel, its document store
    answering from a database. *)
Definition world_over (db : Database) : World :=
  {| accept_ok := accept_ok (demo_world []);
     send_ok := send_ok (demo_world []);
     jwt_decode := jwt_decode (demo_world []);
     find_document := store_answer db;
     json_loads := json_loads (demo_world []) |}.

(** A stand-in for [bcrypt] and [jwt.encode] to run the routes with: the
    hash is the salt followed by the password. *)
Definition demo_crypto : Crypto :=
  {| hashpw := fun password salt => String.append salt (String.append "$" password);
     checkpw := fun password hashed =>
       match index 0 "$" hashed with
       | Some n =>
           String.eqb (substring (S n) (String.length hashed - S n) hashed) password
       | None => false
       end;
     jwt_encode := fun user_id username exp =>
       String.append user_id (String.append "." username) |}.

Definition alice : User.t := User.Build "u1" "alice" 10.
Definition bob : User.t := User.Build "u2" "bob" 20.

(** Two users, a document of each. *)
Definition demo_db : Database :=
  {| users := [(alice, "s1$pw-a"); (bob, "s2$pw-b")];
     documents :=
       [Document.Build "d1" "Notes" "hello" "u1" 30 31 ["u1"];
        Document.Build "d2" "Plan" EmptyString "u2" 40 41 ["u2"]] |}.

End Api.

(** The property every route keeps: a document's collaborators are its
    creator alone. *)
Definition sole_collaborator (d : Document.t) : Prop :=
  Document.collaborators d = [Document.created_by d].

(** The user names of the stored users. *)
Definition usernames (db : Database) : list string :=
  map (fun u => User.username (fst u)) (users db).

(* ================================================================= *)
(** ** Facts about dictionaries *)

Ltac key_neq :=
  repeat match goal with
  | H : ?a <> ?b |- context [String.eqb ?a ?b] =>
      rewrite (proj2 (String.eqb_neq a b) H)
  | H : ?a <> ?b |- context [String.eqb ?b ?a] =>
      rewrite (proj2 (String.eqb_neq b a) (not_eq_sym H))
  end.

Ltac case_key a b :=
  destruct (String.eqb_spec a b) as [?|?]; subst; simpl;
  rewrite ?String.eqb_refl; key_neq; simpl; try congruence; auto.

Section DictFacts.
Context {V : Type}.
Implicit Types (d : dict V) (k : string) (v : V).

Lemma get_set_same d k v : get (set d k v) k = Some v.
  Proof.
    induction d as [|[k' v'] d IH]; simpl.
    - now rewrite String.eqb_refl.
    - case_key k k'.
  Qed.

Lemma get_set_other d k k' v : k <> k' -> get (set d k v) k' = get d k'.
  Proof.
    intros Hne; induction d as [|[k0 v0] d IH]; simpl.
    - case_key k' k.
    - case_key k k0; case_key k' k0.
  Qed.

Lemma get_del_same d k : get (del d k) k = None.
  Proof.
    induction d as [|[k' v'] d IH]; simpl; auto.
    case_key k k'.
  Qed.

Lemma get_del_other d k k' : k <> k' -> get (del d k) k' = get d k'.
  Proof.
    intros Hne; induction d as [|[k0 v0] d IH]; simpl; auto.
    case_key k k0; case_key k' k0.
  Qed.

Lemma set_set d k v v' : set (set d k v) k v' = set d k v'.
  Proof.
    induction d as [|[k0 v0] d IH]; simpl.
    - now rewrite String.eqb_refl.
    - case_key k k0.
  Qed.

Lemma contains_keys d k : contains d k = mem_key k (keys d).
  Proof.
    unfold contains; induction d as [|[k' v'] d IH]; simpl; auto.
    case_key k k'.
  Qed.

Lemma mem_key_In k (l : list string) : mem_key k l = true <-> In k l.
  Proof.
    unfold mem_key; rewrite existsb_exists; split.
    - intros [x [Hx He]]. apply String.eqb_eq in He. now subst.
    - intros H; exists k; split; auto. apply String.eqb_refl.
  Qed.

Lemma get_some_In_keys d k v : get d k = Some v -> In k (keys d).
  Proof.
    intros H. apply mem_key_In. rewrite <- contains_keys.
    unfold contains. now rewrite H.
  Qed.

Lemma get_none_not_In d k : get d k = None <-> ~ In k (keys d).
  Proof.
    rewrite <- mem_key_In, <- contains_keys. unfold contains.
    destruct (get d k); split; intros; congruence.
  Qed.

Lemma get_In d k v : get d k = Some v -> In (k, v) d.
  Proof.
    induction d as [|[k' v'] d IH]; simpl; try discriminate.
    destruct (String.eqb_spec k k'); intros H; [left; congruence | right; auto].
  Qed.

Lemma In_get d k v : NoDup (keys d) -> In (k, v) d -> get d k = Some v.
  Proof.
    induction d as [|[k' v'] d IH]; simpl; intros Hnd Hin; [tauto|].
    inversion Hnd as [|? ? Hk Hd]; subst.
    destruct Hin as [Heq | Hin].
    - inversion Heq; subst. now rewrite String.eqb_refl.
    - case_key k k'. exfalso. apply Hk.
      change (In k' (keys d)). apply in_map_iff. now exists (k', v).
  Qed.

Lemma keys_set d k v : keys (set d k v) = add_key (keys d) k.
  Proof.
    unfold add_key; induction d as [|[k' v'] d IH]; simpl; auto.
    case_key k k'. rewrite IH. unfold keys.
    destruct (mem_key k (map fst d)); reflexivity.
  Qed.

Lemma keys_del d k : keys (del d k) = del_key (keys d) k.
  Proof.
    induction d as [|[k' v'] d IH]; simpl; auto.
    case_key k k'.
  Qed.

Lemma is_empty_keys d : is_empty d = true <-> keys d = [].
  Proof. destruct d; simpl; split; congruence. Qed.

Lemma values_set_absent d k v :
    contains d k = false -> values (set d k v) = values d ++ [v].
  Proof.
    unfold contains; induction d as [|[k' v'] d IH]; simpl; auto.
    case_key k k'. intros H. now rewrite IH.
  Qed.

Lemma length_set d k v :
    length (set d k v) = if contains d k then length d else S (length d).
  Proof.
    unfold contains; induction d as [|[k' v'] d IH]; simpl; auto.
    case_key k k'. rewrite IH. now destruct (get d k).
  Qed.

Lemma Forall_set (P : string * V -> Prop) d k v :
    Forall P d -> P (k, v) -> Forall P (set d k v).
  Proof.
    intros Hd Hp; induction Hd as [|[k' v'] d Hx Hd IH]; simpl; auto.
    case_key k k'; constructor; auto.
  Qed.

Lemma Forall_del (P : string * V -> Prop) d k :
    Forall P d -> Forall P (del d k).
  Proof.
    intros Hd; induction Hd as [|[k' v'] d Hx Hd IH]; simpl; auto.
    case_key k k'.
  Qed.

Lemma get_Forall (P : string * V -> Prop) d k v :
    Forall P d -> get d k = Some v -> P (k, v).
  Proof.
    intros Hd Hg. rewrite Forall_forall in Hd. apply Hd. now apply get_In.
  Qed.

End DictFacts.

Lemma In_add_key l k x : In x (add_key l k) <-> In x l \/ x = k.
Proof.
  unfold add_key. destruct (mem_key k l) eqn:E.
  - apply mem_key_In in E. split; [auto | intros [H | ->]; auto].
  - rewrite in_app_iff; simpl. intuition congruence.
Qed.

Lemma In_del_key l k x : In x (del_key l k) <-> In x l /\ x <> k.
Proof.
  unfold del_key. rewrite filter_In. split; intros [H1 H2]; split; auto.
  - intros ->. now rewrite String.eqb_refl in H2.
  - destruct (String.eqb_spec k x); simpl; congruence.
Qed.

Lemma NoDup_add_key l k : NoDup l -> NoDup (add_key l k).
Proof.
  intros Hnd. unfold add_key. destruct (mem_key k l) eqn:E; auto.
  apply NoDup_app; auto.
  - repeat constructor. simpl; tauto.
  - intros x Hx [<- | []]. apply mem_key_In in Hx. congruence.
Qed.

Lemma NoDup_del_key l k : NoDup l -> NoDup (del_key l k).
Proof. intros; now apply NoDup_filter. Qed.

Lemma length_del_key l k : length (del_key l k) <= length l.
Proof. apply filter_length_le. Qed.

(** [map_values] commutes with every operation. *)
Section MapValues.
Context {V W : Type} (f : V -> W).

Lemma keys_map_values (d : dict V) : keys (map_values f d) = keys d.
  Proof. unfold keys, map_values. rewrite map_map. reflexivity. Qed.

Lemma get_map_values (d : dict V) k :
    get (map_values f d) k = option_map f (get d k).
  Proof.
    induction d as [|[k' v'] d IH]; simpl; auto.
    now destruct (String.eqb k k').
  Qed.

Lemma contains_map_values (d : dict V) k :
    contains (map_values f d) k = contains d k.
  Proof. unfold contains. rewrite get_map_values. now destruct (get d k). Qed.

Lemma set_map_values (d : dict V) k v :
    map_values f (set d k v) = set (map_values f d) k (f v).
  Proof.
    induction d as [|[k' v'] d IH]; simpl; auto.
    destruct (String.eqb k k'); simpl; congruence.
  Qed.

Lemma del_map_values (d : dict V) k :
    map_values f (del d k) = del (map_values f d) k.
  Proof.
    induction d as [|[k' v'] d IH]; simpl; auto.
    destruct (String.eqb k k'); simpl; congruence.
  Qed.

Lemma is_empty_map_values (d : dict V) :
    is_empty (map_values f d) = is_empty d.
  Proof. now destruct d. Qed.

End MapValues.

(* ================================================================= *)
(** ** Facts about the registry *)

Lemma del_absent {V} (d : dict V) k : contains d k = false -> del d k = d.
Proof.
  unfold contains; induction d as [|[k' v'] d IH]; simpl; auto.
  case_key k k'. intros H. now rewrite IH.
Qed.

Lemma set_not_nil {V} (d : dict V) k v : set d k v <> [].
Proof. destruct d as [|[k' v'] d]; simpl; [|destruct (String.eqb k k')]; discriminate. Qed.

Lemma room_get {V} (d : dict (dict V)) document_id r :
  get d document_id = Some r -> room d document_id = r.
Proof. unfold room; now intros ->. Qed.

Section Leaving.
Context {V : Type}.
Implicit Types (d : dict (dict V)).

(** The room a leave touches loses the user, and disappears when that
    empties it; the other rooms stay as they are. *)
Lemma get_leave_same d document_id user_id :
  get (clean_room (del_member d document_id user_id) document_id) document_id
  = match get d document_id with
    | Some r => if is_empty (del r user_id) then None else Some (del r user_id)
    | None => None
    end.
Proof.
  unfold clean_room, del_member.
  destruct (get d document_id) as [r|] eqn:E.
  - destruct (contains r user_id) eqn:C.
    + rewrite get_set_same.
      destruct (is_empty (del r user_id)); [apply get_del_same | apply get_set_same].
    + rewrite E, (del_absent r user_id C).
      destruct (is_empty r); [apply get_del_same | exact E].
  - now rewrite E.
Qed.

Lemma get_leave_other d document_id user_id document_id' :
  document_id <> document_id' ->
  get (clean_room (del_member d document_id user_id) document_id) document_id'
  = get d document_id'.
Proof.
  intros Hne. unfold clean_room.
  assert (H1 : get (del_member d document_id user_id) document_id' = get d document_id').
  { unfold del_member. destruct (get d document_id) as [r|]; auto.
    destruct (contains r user_id); auto. now apply get_set_other. }
  destruct (get (del_member d document_id user_id) document_id) as [r|]; auto.
  destruct (is_empty r); auto. now rewrite get_del_other.
Qed.

Lemma room_leave_same d document_id user_id :
  room (clean_room (del_member d document_id user_id) document_id) document_id
  = del (room d document_id) user_id.
Proof.
  unfold room. rewrite get_leave_same.
  destruct (get d document_id) as [r|]; auto.
  destruct (del r user_id); reflexivity.
Qed.

Lemma NoDup_keys_leave d document_id user_id :
  NoDup (keys d) ->
  NoDup (keys (clean_room (del_member d document_id user_id) document_id)).
Proof.
  intros Hnd.
  assert (H1 : NoDup (keys (del_member d document_id user_id))).
  { unfold del_member. destruct (get d document_id) as [r|]; auto.
    destruct (contains r user_id); auto.
    rewrite keys_set. now apply NoDup_add_key. }
  unfold clean_room.
  destruct (get (del_member d document_id user_id) document_id) as [r|]; auto.
  destruct (is_empty r); auto. rewrite keys_del. now apply NoDup_del_key.
Qed.

Lemma rooms_ok_leave d document_id user_id :
  rooms_ok d -> rooms_ok (clean_room (del_member d document_id user_id) document_id).
Proof.
  intros [Hnd Hr]. split; [now apply NoDup_keys_leave|].
  intros doc r. destruct (String.eqb_spec document_id doc) as [<-|Hne].
  - rewrite get_leave_same. destruct (get d document_id) as [r0|] eqn:E; [|discriminate].
    destruct (is_empty (del r0 user_id)) eqn:Em; [discriminate|].
    intros [= <-]. split.
    + rewrite keys_del. apply NoDup_del_key. now apply (Hr _ _ E).
    + intros Heq. rewrite Heq in Em. discriminate.
  - rewrite get_leave_other by assumption. apply Hr.
Qed.

(** Joining: the room gains or updates one entry. *)
Lemma get_add_member_same d document_id user_id (v : V) :
  get (add_member d document_id user_id v) document_id
  = Some (set (room d document_id) user_id v).
Proof. apply get_set_same. Qed.

Lemma get_add_member_other d document_id user_id (v : V) document_id' :
  document_id <> document_id' ->
  get (add_member d document_id user_id v) document_id' = get d document_id'.
Proof. apply get_set_other. Qed.

Lemma NoDup_keys_room d document_id :
  rooms_ok d -> NoDup (keys (room d document_id)).
Proof.
  intros [_ Hr]. unfold room.
  destruct (get d document_id) as [r|] eqn:E; [now apply (Hr _ _ E) | constructor].
Qed.

Lemma rooms_ok_add_member d document_id user_id (v : V) :
  rooms_ok d -> rooms_ok (add_member d document_id user_id v).
Proof.
  intros Hok. pose proof Hok as [Hnd Hr]. split.
  - unfold add_member. rewrite keys_set. now apply NoDup_add_key.
  - intros doc r. destruct (String.eqb_spec document_id doc) as [<-|Hne].
    + rewrite get_add_member_same. intros [= <-]. split.
      * rewrite keys_set. apply NoDup_add_key. now apply NoDup_keys_room.
      * apply set_not_nil.
    + rewrite get_add_member_other by assumption. apply Hr.
Qed.

End Leaving.

(** Forgetting the values commutes with joining and leaving. *)
Section Erasure.
Context {V W : Type} (f : V -> W).

Lemma del_member_map d document_id user_id :
  map_values (map_values f) (del_member d document_id user_id)
  = del_member (map_values (map_values f) d) document_id user_id.
Proof.
  unfold del_member. rewrite get_map_values.
  destruct (get d document_id) as [r|]; simpl; auto.
  rewrite contains_map_values. destruct (contains r user_id); auto.
  now rewrite set_map_values, del_map_values.
Qed.

Lemma clean_room_map d document_id :
  map_values (map_values f) (clean_room d document_id)
  = clean_room (map_values (map_values f) d) document_id.
Proof.
  unfold clean_room. rewrite get_map_values.
  destruct (get d document_id) as [r|]; simpl; auto.
  rewrite is_empty_map_values. destruct (is_empty r); auto.
  now rewrite del_map_values.
Qed.

Lemma room_map d document_id :
  room (map_values (map_values f) d) document_id = map_values f (room d document_id).
Proof.
  unfold room. rewrite get_map_values. now destruct (get d document_id).
Qed.

Lemma add_member_map d document_id user_id v :
  map_values (map_values f) (add_member d document_id user_id v)
  = add_member (map_values (map_values f) d) document_id user_id (f v).
Proof.
  unfold add_member. rewrite room_map.
  now rewrite set_map_values, set_map_values.
Qed.

End Erasure.

Lemma in_sync_contains self document_id :
  in_sync self ->
  contains (user_info self) document_id
  = contains (active_connections self) document_id.
Proof.
  unfold in_sync, erase. intros H.
  rewrite <- (contains_map_values (map_values (fun _ => tt)) (user_info self)).
  rewrite <- H. apply contains_map_values.
Qed.

Lemma in_sync_keys self :
  in_sync self -> keys (active_connections self) = keys (user_info self).
Proof.
  unfold in_sync, erase. intros H.
  rewrite <- (keys_map_values (map_values (fun _ : WebSocket => tt))).
  rewrite H. apply keys_map_values.
Qed.

Lemma in_sync_room_keys self document_id :
  in_sync self ->
  keys (room (active_connections self) document_id)
  = keys (room (user_info self) document_id).
Proof.
  unfold in_sync, erase. intros H.
  rewrite <- (keys_map_values (fun _ : WebSocket => tt)).
  rewrite <- room_map, H, room_map. apply keys_map_values.
Qed.

Lemma in_sync_disconnect document_id user_id self :
  in_sync self -> in_sync (disconnect document_id user_id self).
Proof.
  unfold in_sync, erase, disconnect; simpl. intros H.
  now rewrite !clean_room_map, !del_member_map, H.
Qed.

Lemma infos_keyed_disconnect document_id user_id self :
  infos_keyed (user_info self) ->
  infos_keyed (user_info (disconnect document_id user_id self)).
Proof.
  intros Hk doc r; simpl.
  destruct (String.eqb_spec document_id doc) as [<-|Hne].
  - rewrite get_leave_same.
    destruct (get (user_info self) document_id) as [r0|] eqn:E; [|discriminate].
    destruct (is_empty (del r0 user_id)); [discriminate|].
    intros [= <-]. apply Forall_del. now apply (Hk _ _ E).
  - rewrite get_leave_other by assumption. apply Hk.
Qed.

Lemma well_formed_disconnect document_id user_id self :
  well_formed self -> well_formed (disconnect document_id user_id self).
Proof.
  intros [Hs Hr Hk]. constructor.
  - now apply in_sync_disconnect.
  - now apply rooms_ok_leave.
  - now apply infos_keyed_disconnect.
Qed.

(** In a registry whose maps agree, the update of [connect] never raises and
    is [add_member] on both maps. *)
Lemma register_in_sync websocket document_id user_id user_name now self :
  in_sync self ->
  register websocket document_id user_id user_name now self
  = done (registered websocket document_id user_id user_name now self).
Proof.
  intros Hs. pose proof (in_sync_contains self document_id Hs) as Hc.
  unfold register, registered, set_member, add_member, room, contains in *.
  destruct (get (active_connections self) document_id) as [r|] eqn:Ea; simpl.
  - rewrite Ea.
    destruct (get (user_info self) document_id) as [r'|] eqn:Eu; [|discriminate].
    reflexivity.
  - destruct (get (user_info self) document_id) as [r'|] eqn:Eu; [discriminate|].
    rewrite !get_set_same, !set_set. reflexivity.
Qed.

Lemma well_formed_add websocket document_id user_id user_name now self :
  well_formed self ->
  well_formed (registered websocket document_id user_id user_name now self).
Proof.
  intros [Hs Hr Hk]. unfold registered. constructor; simpl.
  - unfold in_sync, erase in *; simpl. now rewrite !add_member_map, Hs.
  - now apply rooms_ok_add_member.
  - intros doc r. destruct (String.eqb_spec document_id doc) as [<-|Hne].
    + rewrite get_add_member_same. intros [= <-].
      apply Forall_set; [|reflexivity].
      unfold room. destruct (get (user_info self) document_id) eqn:E; [|constructor].
      now apply (Hk _ _ E).
    + rewrite get_add_member_other by assumption. apply Hk.
Qed.

Lemma well_formed_manager : well_formed manager.
Proof.
  constructor; [reflexivity | split; [constructor | discriminate] | discriminate].
Qed.

(* ================================================================= *)
(** ** Properties kept by every coroutine of the hub *)

Lemma preserves_done P : preserves P done.
Proof. intros self H; exact H. Qed.

Lemma preserves_emit P e : preserves P (emit e).
Proof. intros self H; exact H. Qed.

Lemma preserves_raise P e : preserves P (raise e).
Proof. intros self H; exact H. Qed.

Lemma preserves_await P : preserves P await_frame.
Proof. intros self H; exact H. Qed.

Lemma preserves_update P f :
  (forall self, P self -> P (f self)) -> preserves P (update f).
Proof. intros Hf self H; now apply Hf. Qed.

Lemma preserves_seq P c1 c2 :
  preserves P c1 -> preserves P c2 -> preserves P (c1 ;; c2).
Proof.
  intros H1 H2 self H. unfold seq. specialize (H1 self H).
  destruct (result_of (c1 self)); simpl; auto.
Qed.

Lemma preserves_try P c catches handler :
  preserves P c -> (forall e, preserves P (handler e)) ->
  preserves P (try_except c catches handler).
Proof.
  intros H1 H2 self H. unfold try_except. specialize (H1 self H).
  destruct (result_of (c self)); simpl; auto.
  destruct (catches e); simpl; auto. now apply H2.
Qed.

Create HintDb hub.

#[local] Hint Resolve preserves_done preserves_emit preserves_raise
  preserves_await preserves_update preserves_seq preserves_try : hub.

Section Preservation.
Variable P : ConnectionManager -> Prop.
Hypothesis P_disconnect :
  forall document_id user_id self, P self -> P (disconnect document_id user_id self).

Lemma preserves_broadcast_loop w msg document_id exclude_user used pending live :
  preserves P (broadcast_loop w msg document_id exclude_user used pending live).
Proof.
  revert live. induction pending as [|[user_id websocket] rest IH]; intros live; simpl.
  - destruct (negb (Nat.eqb (length live) used)); auto with hub.
  - destruct (negb (Nat.eqb (length live) used)); auto with hub.
    destruct (excluded exclude_user user_id); auto.
    destruct (send_ok w websocket); auto with hub.
Qed.

Lemma preserves_broadcast w msg document_id exclude_user :
  preserves P (broadcast w msg document_id exclude_user).
Proof.
  intros self H. unfold broadcast.
  destruct (get (active_connections self) document_id); auto.
  now apply preserves_broadcast_loop.
Qed.

Lemma preserves_broadcast_presence w document_id :
  preserves P (broadcast_presence w document_id).
Proof.
  intros self H. unfold broadcast_presence.
  destruct (get (user_info self) document_id); auto.
  now apply preserves_broadcast.
Qed.

Hypothesis P_register :
  forall websocket document_id user_id user_name now,
    preserves P (register websocket document_id user_id user_name now).

Lemma preserves_connect w websocket document_id user_id user_name now :
  preserves P (connect w websocket document_id user_id user_name now).
Proof.
  unfold connect. apply preserves_seq; [|apply preserves_seq].
  - destruct (accept_ok w websocket); auto with hub.
  - apply P_register.
  - apply preserves_broadcast_presence.
Qed.

Lemma preserves_receive_one w document_id user_id f :
  preserves P (receive_one w document_id user_id f).
Proof.
  destruct f; simpl; auto with hub.
  apply preserves_seq; [|apply preserves_broadcast].
  destruct (json_loads w data); auto with hub.
Qed.

Lemma preserves_receive_loop w document_id user_id inbound :
  preserves P (receive_loop w document_id user_id inbound).
Proof.
  induction inbound as [|f rest IH]; simpl; auto with hub.
  apply preserves_seq; auto. apply preserves_receive_one.
Qed.

Lemma preserves_serve w document_id user_id inbound :
  preserves P (serve w document_id user_id inbound).
Proof.
  unfold serve. apply preserves_try; [apply preserves_receive_loop|].
  intros _. apply preserves_seq; [|apply preserves_broadcast_presence].
  apply preserves_update. intros; now apply P_disconnect.
Qed.

Lemma preserves_guarded websocket body :
  preserves P body -> preserves P (guarded websocket body).
Proof. intros H. unfold guarded. apply preserves_try; auto with hub. Qed.

Lemma preserves_websocket_endpoint w websocket document_id token now inbound :
  preserves P (websocket_endpoint w websocket document_id token now inbound).
Proof.
  unfold websocket_endpoint.
  destruct (negb (truthy token)); auto with hub.
  apply preserves_guarded.
  destruct (decode_jwt_token w (text_of token)) as [[user_id username]|e];
    auto with hub.
  destruct (negb (truthy user_id) || negb (truthy username)); auto with hub.
  destruct (find_document w document_id); auto with hub.
  destruct (negb (existsb (String.eqb (text_of user_id)) collaborators));
    auto with hub.
  apply preserves_seq; [apply preserves_connect | apply preserves_serve].
Qed.

Lemma preserves_perform op : preserves P (perform op).
Proof.
  destruct op; simpl.
  - apply preserves_connect.
  - apply preserves_update. intros; now apply P_disconnect.
  - apply preserves_broadcast.
  - apply preserves_broadcast_presence.
  - apply preserves_websocket_endpoint.
Qed.

Lemma preserved_along history self :
  P self -> P (fold_left (fun self op => state (perform op self)) history self).
Proof.
  revert self. induction history as [|op rest IH]; intros self H; simpl; auto.
  apply IH. now apply preserves_perform.
Qed.

End Preservation.

Lemma well_formed_register websocket document_id user_id user_name now :
  preserves well_formed (register websocket document_id user_id user_name now).
Proof.
  intros self H. rewrite register_in_sync by apply H.
  now apply well_formed_add.
Qed.

(** Every registry the hub can reach is well formed. *)
Lemma well_formed_after history : well_formed (after history).
Proof.
  unfold after. apply preserved_along.
  - intros; now apply well_formed_disconnect.
  - intros; apply well_formed_register.
  - apply well_formed_manager.
Qed.

(* ================================================================= *)
(** ** What a broadcast delivers *)

Lemma length_del_le {V} (d : dict V) k : length (del d k) <= length d.
Proof.
  induction d as [|[k' v'] d IH]; simpl; auto.
  destruct (String.eqb k k'); simpl; lia.
Qed.

Lemma length_del_lt {V} (d : dict V) k :
  contains d k = true -> length (del d k) < length d.
Proof.
  unfold contains. induction d as [|[k' v'] d IH]; simpl; [discriminate|].
  destruct (String.eqb k k'); simpl; intros H.
  - pose proof (length_del_le d k). lia.
  - specialize (IH H). lia.
Qed.

Lemma targets_cons exclude_user user_id websocket r :
  targets exclude_user ((user_id, websocket) :: r)
  = if excluded exclude_user user_id then targets exclude_user r
    else websocket :: targets exclude_user r.
Proof. unfold targets; simpl. now destruct (excluded exclude_user user_id). Qed.

Lemma targets_None r : targets None r = values r.
Proof.
  unfold targets; simpl. induction r as [|kv r IH]; simpl; auto.
  unfold values in *. simpl. now rewrite IH.
Qed.

Lemma targets_app exclude_user r1 r2 :
  targets exclude_user (r1 ++ r2) = targets exclude_user r1 ++ targets exclude_user r2.
Proof. unfold targets, values. now rewrite filter_app, map_app. Qed.

(** With every send succeeding the loop writes to each target once, in
    order, and leaves the registry alone. *)
Lemma broadcast_loop_delivers w msg document_id exclude_user pending live self :
  (forall c, In c (targets exclude_user pending) -> send_ok w c = true) ->
  broadcast_loop w msg document_id exclude_user (length live) pending live self
  = Outcome self (map (fun c => SendText c msg) (targets exclude_user pending))
      Returned.
Proof.
  induction pending as [|[user_id websocket] rest IH]; simpl; intros Hok;
    rewrite Nat.eqb_refl; simpl; [reflexivity|].
  rewrite targets_cons in *.
  destruct (excluded exclude_user user_id); [now apply IH|].
  rewrite (Hok websocket) by now left.
  unfold seq, emit; simpl. rewrite IH by (intros; apply Hok; now right).
  reflexivity.
Qed.

(** The first failed send removes its member and ends the loop: the next
    step of the iterator finds the room smaller and raises. *)
Lemma broadcast_loop_aborts w msg document_id exclude_user
    before user_id websocket rest live self :
  (forall c, In c (targets exclude_user before) -> send_ok w c = true) ->
  excluded exclude_user user_id = false ->
  send_ok w websocket = false ->
  contains live user_id = true ->
  broadcast_loop w msg document_id exclude_user (length live)
    (before ++ (user_id, websocket) :: rest) live self
  = Outcome (disconnect document_id user_id self)
      (map (fun c => SendText c msg) (targets exclude_user before))
      (Raised RuntimeError).
Proof.
  intros Hok Hex Hfail Hin.
  induction before as [|[u c] before IH]; simpl; rewrite Nat.eqb_refl; simpl.
  - rewrite Hex, Hfail. unfold seq, update; simpl.
    assert (Hlt : Nat.eqb (length (del live user_id)) (length live) = false).
    { apply Nat.eqb_neq. pose proof (length_del_lt live user_id Hin). lia. }
    destruct rest as [|[u' c'] rest]; simpl; rewrite Hlt; reflexivity.
  - rewrite targets_cons in *.
    destruct (excluded exclude_user u); [now apply IH|].
    rewrite (Hok c) by now left.
    unfold seq, emit; simpl. rewrite IH by (intros; apply Hok; now right).
    reflexivity.
Qed.

Lemma broadcast_delivers w msg document_id exclude_user self :
  (forall c, In c (targets exclude_user (room (active_connections self) document_id)) ->
             send_ok w c = true) ->
  broadcast w msg document_id exclude_user self
  = Outcome self
      (map (fun c => SendText c msg)
         (targets exclude_user (room (active_connections self) document_id)))
      Returned.
Proof.
  unfold broadcast, room.
  destruct (get (active_connections self) document_id) as [r|]; [|reflexivity].
  apply broadcast_loop_delivers.
Qed.

Lemma broadcast_aborts w msg document_id exclude_user
    before user_id websocket rest self :
  get (active_connections self) document_id
  = Some (before ++ (user_id, websocket) :: rest) ->
  (forall c, In c (targets exclude_user before) -> send_ok w c = true) ->
  excluded exclude_user user_id = false ->
  send_ok w websocket = false ->
  broadcast w msg document_id exclude_user self
  = Outcome (disconnect document_id user_id self)
      (map (fun c => SendText c msg) (targets exclude_user before))
      (Raised RuntimeError).
Proof.
  intros Hr Hok Hex Hfail. unfold broadcast. rewrite Hr.
  apply broadcast_loop_aborts; auto.
  rewrite contains_keys. apply mem_key_In. unfold keys.
  rewrite map_app, in_app_iff. right; now left.
Qed.

Lemma broadcast_presence_delivers w document_id self :
  in_sync self ->
  (forall c, In c (values (room (active_connections self) document_id)) ->
             send_ok w c = true) ->
  broadcast_presence w document_id self
  = Outcome self
      (map (fun c => SendText c (Presence (snapshot self document_id)))
         (values (room (active_connections self) document_id)))
      Returned.
Proof.
  intros Hs Hok. unfold broadcast_presence, snapshot.
  pose proof (in_sync_contains self document_id Hs) as Hc. unfold contains in Hc.
  destruct (get (user_info self) document_id) as [infos|] eqn:Eu.
  - rewrite (room_get _ _ _ Eu), <- targets_None.
    apply broadcast_delivers. now rewrite targets_None.
  - unfold room.
    destruct (get (active_connections self) document_id); [discriminate|reflexivity].
Qed.

(** A join in a world where the handshake and the sends succeed. *)
Lemma connect_delivers w websocket document_id user_id user_name now self :
  in_sync self ->
  accept_ok w websocket = true ->
  (forall c,
      In c (values (room (active_connections
                            (registered websocket document_id user_id user_name now self))
                      document_id)) ->
      send_ok w c = true) ->
  connect w websocket document_id user_id user_name now self
  = Outcome (registered websocket document_id user_id user_name now self)
      (Accept websocket ::
       map (fun c => SendText c
                       (Presence (snapshot (registered websocket document_id user_id
                                              user_name now self) document_id)))
         (values (room (active_connections
                          (registered websocket document_id user_id user_name now self))
                    document_id)))
      Returned.
Proof.
  intros Hs Hacc Hok. unfold connect. rewrite Hacc.
  unfold seq at 1. unfold emit at 1. simpl.
  unfold seq. rewrite register_in_sync by assumption. simpl.
  rewrite broadcast_presence_delivers; auto.
  unfold in_sync, erase, registered in *; simpl. now rewrite !add_member_map, Hs.
Qed.

(* ================================================================= *)
(** ** The two maps and the rooms they hold *)

Lemma in_sync_get_user_info self document_id infos :
  in_sync self ->
  get (user_info self) document_id = Some infos ->
  exists r, get (active_connections self) document_id = Some r /\ keys r = keys infos.
Proof.
  unfold in_sync, erase. intros Hs Hg.
  assert (H : get (map_values (map_values (fun _ : WebSocket => tt))
                     (active_connections self)) document_id
              = get (map_values (map_values (fun _ : UserInfo.t => tt))
                       (user_info self)) document_id) by now rewrite Hs.
  rewrite !get_map_values, Hg in H.
  destruct (get (active_connections self) document_id) as [r|]; [|discriminate].
  exists r; split; auto. simpl in H. injection H as H.
  rewrite <- (keys_map_values (fun _ : WebSocket => tt) r), H.
  apply keys_map_values.
Qed.

Lemma rooms_ok_user_info self :
  in_sync self -> rooms_ok (active_connections self) -> rooms_ok (user_info self).
Proof.
  intros Hs [Hnd Hr]. split.
  - now rewrite <- in_sync_keys.
  - intros doc infos Hg.
    destruct (in_sync_get_user_info self doc infos Hs Hg) as [r [Hgr Hk]].
    destruct (Hr _ _ Hgr) as [Hn He]. rewrite <- Hk. split; auto.
    intros ->. destruct r; [congruence | discriminate].
Qed.

Lemma rooms_ok_no_empty {V} (d : dict (dict V)) :
  rooms_ok d -> has_empty_room d = false.
Proof.
  intros [Hnd Hr]. apply not_true_is_false. unfold has_empty_room.
  rewrite existsb_exists. intros [[k r] [Hin He]].
  apply In_get in Hin; auto. destruct (Hr _ _ Hin) as [_ Hne].
  destruct r; [congruence | discriminate].
Qed.

Lemma members_disconnect document_id user_id self :
  members (disconnect document_id user_id self) document_id
  = del_key (members self document_id) user_id.
Proof. unfold members, disconnect; simpl. now rewrite room_leave_same, keys_del. Qed.

Lemma members_disconnect_other document_id' user_id self document_id :
  document_id' <> document_id ->
  members (disconnect document_id' user_id self) document_id = members self document_id.
Proof.
  intros Hne. unfold members, disconnect, room; simpl.
  now rewrite get_leave_other.
Qed.

Lemma members_registered websocket document_id user_id user_name now self :
  members (registered websocket document_id user_id user_name now self) document_id
  = add_key (members self document_id) user_id.
Proof.
  unfold members, registered, room at 1; simpl.
  now rewrite get_add_member_same, keys_set.
Qed.

Lemma last_member_leaves {V} (d : dict (dict V)) document_id user_id :
  keys (room d document_id) = [user_id] ->
  ~ In document_id (keys (clean_room (del_member d document_id user_id) document_id)).
Proof.
  intros Hk. apply get_none_not_In. rewrite get_leave_same.
  unfold room in Hk. destruct (get d document_id) as [r|]; auto.
  assert (He : keys (del r user_id) = []).
  { rewrite keys_del, Hk. simpl. now rewrite String.eqb_refl. }
  apply is_empty_keys in He. now rewrite He.
Qed.

(** C10: after every operation of the ConnectionManager (connect, disconnect,
    broadcast with the removals its failed sends trigger, and the endpoint
    that calls them), [active_connections] and [user_info] hold the same
    document keys and, for each document, the same user-id keys; here even in
    the same order. *)
Theorem registry_maps_agree history :
  in_sync (after history)
  /\ keys (active_connections (after history)) = keys (user_info (after history))
  /\ forall document_id,
       keys (room (active_connections (after history)) document_id)
       = keys (room (user_info (after history)) document_id).
Proof.
  pose proof (wf_sync _ (well_formed_after history)) as Hs.
  split; [exact Hs | split].
  - now apply in_sync_keys.
  - intros document_id. now apply in_sync_room_keys.
Qed.

(** C7: after every registry operation no room with zero members remains in
    either map, and when the last member of a room is removed the key of the
    room is no longer listed. *)
Theorem no_empty_room_retained history :
  has_empty_room (active_connections (after history)) = false
  /\ has_empty_room (user_info (after history)) = false
  /\ forall document_id user_id,
       members (after history) document_id = [user_id] ->
       ~ In document_id
           (keys (active_connections (disconnect document_id user_id (after history))))
       /\ ~ In document_id
             (keys (user_info (disconnect document_id user_id (after history)))).
Proof.
  destruct (well_formed_after history) as [Hs Hr Hk].
  split; [now apply rooms_ok_no_empty | split].
  - apply rooms_ok_no_empty. now apply rooms_ok_user_info.
  - intros document_id user_id Hm.
    assert (Ha : ~ In document_id
                   (keys (active_connections
                            (disconnect document_id user_id (after history))))).
    { unfold disconnect; simpl. now apply last_member_leaves. }
    split; [exact Ha|].
    now rewrite <- (in_sync_keys _ (in_sync_disconnect document_id user_id _ Hs)).
Qed.

(* ================================================================= *)
(** ** Joins and leaves of one room *)

Lemma map_user_id_values (r : dict UserInfo.t) :
  Forall (fun e => UserInfo.user_id (snd e) = fst e) r ->
  map UserInfo.user_id (values r) = keys r.
Proof.
  induction 1 as [|[k v] r Hx Hr IH]; simpl; auto.
  simpl in Hx. now rewrite Hx, IH.
Qed.

(** The user identifiers of the snapshot are the keys of the room. *)
Lemma snapshot_user_ids self document_id :
  well_formed self ->
  map UserInfo.user_id (snapshot self document_id) = members self document_id.
Proof.
  intros [Hs Hr Hk]. unfold snapshot, members.
  rewrite (in_sync_room_keys _ document_id Hs).
  apply map_user_id_values. unfold room.
  destruct (get (user_info self) document_id) as [r|] eqn:E; [|constructor].
  now apply (Hk _ _ E).
Qed.

Lemma run_room_ops_members w document_id ops self :
  (forall c, accept_ok w c = true) ->
  (forall c, send_ok w c = true) ->
  well_formed self ->
  well_formed (run_room_ops w document_id ops self)
  /\ members (run_room_ops w document_id ops self) document_id
     = fold_left room_op_keys ops (members self document_id).
Proof.
  intros Hacc Hsend. revert self.
  induction ops as [|op ops IH]; intros self Hwf; simpl; [now split|].
  destruct op as [websocket user_id user_name now | user_id]; simpl.
  - rewrite connect_delivers by (auto; apply Hwf). simpl.
    rewrite <- (members_registered websocket document_id user_id user_name now).
    apply IH. now apply well_formed_add.
  - rewrite <- members_disconnect. apply IH. now apply well_formed_disconnect.
Qed.

Lemma joined_not_left_nil user_id : ~ joined_not_left [] user_id.
Proof.
  intros (before & websocket & user_name & now & since & H & _).
  destruct before; discriminate.
Qed.

Lemma joined_not_left_cons op ops user_id :
  joined_not_left (op :: ops) user_id
  <-> joined_not_left ops user_id
      \/ ((exists websocket user_name now, op = Join websocket user_id user_name now)
          /\ ~ In (Leave user_id) ops).
Proof.
  split.
  - intros (before & websocket & user_name & now & since & H & Hn).
    destruct before as [|b before]; simpl in H; injection H as -> ->.
    + right. split; eauto.
    + left. now exists before, websocket, user_name, now, since.
  - intros [(before & websocket & user_name & now & since & -> & Hn)
           | [(websocket & user_name & now & ->) Hn]].
    + now exists (op :: before), websocket, user_name, now, since.
    + now exists [], websocket, user_name, now, ops.
Qed.

(** The fold over the member list computes the specification's set. *)
Lemma In_fold_room_ops ops l user_id :
  In user_id (fold_left room_op_keys ops l)
  <-> joined_not_left ops user_id \/ (In user_id l /\ ~ In (Leave user_id) ops).
Proof.
  revert l. induction ops as [|op ops IH]; intros l; simpl.
  - pose proof (joined_not_left_nil user_id). tauto.
  - rewrite IH, joined_not_left_cons.
    destruct op as [websocket u user_name now | u]; simpl.
    + rewrite In_add_key. split.
      * intros [H | [[H | ->] Hn]]; auto.
        -- right. split; auto. intros [H' | H']; [discriminate | auto].
        -- left. right. split; eauto.
      * intros [[H | [(c & n & t & [= <-]) Hn]] | [H Hn]]; auto.
        right. split; auto.
    + rewrite In_del_key. split.
      * intros [H | [[H Hne] Hn]]; auto.
        right. split; auto. intros [[= H'] | H']; auto.
      * intros [[H | [(c & n & t & Hd) Hn]] | [H Hn]]; auto; [discriminate|].
        right. split; [split|]; auto. intros ->. apply Hn. now left.
Qed.

(** C4: for every finite sequence of connects (joins) and disconnects (leaves)
    on one room, in a world whose handshakes and sends succeed, the user
    identifiers of the room's snapshot are exactly the users that joined and
    have not since left, each listed once. *)
Theorem snapshot_is_joined_not_left w document_id ops :
  (forall c, accept_ok w c = true) ->
  (forall c, send_ok w c = true) ->
  NoDup (map UserInfo.user_id
           (snapshot (run_room_ops w document_id ops manager) document_id))
  /\ forall user_id,
       In user_id (map UserInfo.user_id
                     (snapshot (run_room_ops w document_id ops manager) document_id))
       <-> joined_not_left ops user_id.
Proof.
  intros Hacc Hsend.
  destruct (run_room_ops_members w document_id ops manager Hacc Hsend
              well_formed_manager) as [Hwf Hm].
  rewrite (snapshot_user_ids _ document_id Hwf). split.
  - apply NoDup_keys_room, Hwf.
  - intros user_id. rewrite Hm, In_fold_room_ops. simpl. tauto.
Qed.

Lemma snapshot_is_joined_not_left_witness :
  NoDup (map UserInfo.user_id
           (snapshot (run_room_ops (demo_world []) "D"
                        [Join 1 "u1" "Alice" "t1"; Join 2 "u2" "Bob" "t2";
                         Leave "u1"; Join 3 "u2" "Bob" "t3"] manager) "D"))
  /\ forall user_id,
       In user_id (map UserInfo.user_id
                     (snapshot (run_room_ops (demo_world []) "D"
                                  [Join 1 "u1" "Alice" "t1"; Join 2 "u2" "Bob" "t2";
                                   Leave "u1"; Join 3 "u2" "Bob" "t3"] manager) "D"))
       <-> joined_not_left
             [Join 1 "u1" "Alice" "t1"; Join 2 "u2" "Bob" "t2";
              Leave "u1"; Join 3 "u2" "Bob" "t3"] user_id.
Proof.
  apply (snapshot_is_joined_not_left (demo_world []) "D"); reflexivity.
Defined.

(* ================================================================= *)
(** ** Joining again *)

Lemma connect_state w websocket document_id user_id user_name now self :
  in_sync self ->
  accept_ok w websocket = true ->
  state (connect w websocket document_id user_id user_name now self)
  = state (broadcast_presence w document_id
             (registered websocket document_id user_id user_name now self)).
Proof.
  intros Hs Hacc. unfold connect. rewrite Hacc.
  unfold seq at 1. unfold emit at 1. simpl.
  unfold seq. rewrite register_in_sync by assumption. reflexivity.
Qed.

Lemma channel_disconnect document_id' user_id' self document_id user_id c :
  channel (disconnect document_id' user_id' self) document_id user_id = Some c ->
  channel self document_id user_id = Some c.
Proof.
  unfold channel, disconnect; simpl.
  destruct (String.eqb_spec document_id' document_id) as [->|Hne].
  - rewrite room_leave_same.
    destruct (String.eqb_spec user_id' user_id) as [->|Hu].
    + now rewrite get_del_same.
    + now rewrite get_del_other.
  - unfold room. now rewrite get_leave_other.
Qed.

Lemma members_disconnect_length document_id' user_id' self document_id :
  length (members (disconnect document_id' user_id' self) document_id)
  <= length (members self document_id).
Proof.
  destruct (String.eqb_spec document_id' document_id) as [->|Hne].
  - rewrite members_disconnect. apply length_del_key.
  - now rewrite members_disconnect_other.
Qed.

Lemma add_key_present l k : In k l -> add_key l k = l.
Proof. intros H. unfold add_key. apply mem_key_In in H. now rewrite H. Qed.

Lemma channel_registered websocket document_id user_id user_name now self :
  channel (registered websocket document_id user_id user_name now self)
    document_id user_id = Some websocket.
Proof.
  unfold channel, registered, room at 1; simpl.
  rewrite get_add_member_same. apply get_set_same.
Qed.

(** C8: a connect for a user who is already in the room replaces the channel
    filed for that user (whatever channel is filed afterwards is the new one),
    leaves at most one entry per user and does not increase the number of
    members; when the sends of the presence broadcast succeed the room lists
    the very same users and the user's channel is the new one. *)
Theorem reconnect_replaces_channel w websocket document_id user_id user_name now self :
  well_formed self ->
  In user_id (members self document_id) ->
  accept_ok w websocket = true ->
  NoDup (members (state (connect w websocket document_id user_id user_name now self))
           document_id)
  /\ length (members (state (connect w websocket document_id user_id user_name now self))
               document_id)
     <= length (members self document_id)
  /\ (forall c,
        channel (state (connect w websocket document_id user_id user_name now self))
          document_id user_id = Some c ->
        c = websocket)
  /\ ((forall c, send_ok w c = true) ->
      channel (state (connect w websocket document_id user_id user_name now self))
        document_id user_id = Some websocket
      /\ members (state (connect w websocket document_id user_id user_name now self))
           document_id
         = members self document_id).
Proof.
  intros Hwf Hin Hacc.
  pose proof (members_registered websocket document_id user_id user_name now self) as Hm.
  rewrite (add_key_present _ _ Hin) in Hm.
  repeat split.
  - apply NoDup_keys_room.
    apply (preserves_connect well_formed); auto.
    + intros; now apply well_formed_disconnect.
    + intros; apply well_formed_register.
  - rewrite connect_state by (auto; apply Hwf).
    apply (preserves_broadcast_presence
             (fun s => length (members s document_id) <= length (members self document_id))).
    + intros d u s H. etransitivity; [apply members_disconnect_length | exact H].
    + now rewrite Hm.
  - rewrite connect_state by (auto; apply Hwf).
    apply (preserves_broadcast_presence
             (fun s => forall c, channel s document_id user_id = Some c -> c = websocket)).
    + intros d u s H c Hc. apply H. now apply channel_disconnect in Hc.
    + intros c. rewrite channel_registered. congruence.
  - rewrite connect_delivers by (auto; apply Hwf). apply channel_registered.
  - rewrite connect_delivers by (auto; apply Hwf). exact Hm.
Qed.

Lemma three_in_D_well_formed : well_formed three_in_D.
Proof.
  constructor.
  - reflexivity.
  - split; [repeat constructor; simpl; tauto|].
    intros d r. simpl. destruct (String.eqb d "D"); [|discriminate].
    intros [= <-]. split; [|discriminate].
    repeat constructor; simpl; intuition discriminate.
  - intros d r. simpl. destruct (String.eqb d "D"); [|discriminate].
    intros [= <-]. repeat constructor.
Qed.

Lemma reconnect_replaces_channel_witness :
  NoDup (members (state (connect (demo_world []) 8 "D" "u2" "Bob" "t8" three_in_D)) "D")
  /\ length (members (state (connect (demo_world []) 8 "D" "u2" "Bob" "t8" three_in_D)) "D")
     <= length (members three_in_D "D")
  /\ (forall c,
        channel (state (connect (demo_world []) 8 "D" "u2" "Bob" "t8" three_in_D))
          "D" "u2" = Some c ->
        c = 8)
  /\ ((forall c, send_ok (demo_world []) c = true) ->
      channel (state (connect (demo_world []) 8 "D" "u2" "Bob" "t8" three_in_D))
        "D" "u2" = Some 8
      /\ members (state (connect (demo_world []) 8 "D" "u2" "Bob" "t8" three_in_D)) "D"
         = members three_in_D "D").
Proof.
  apply (reconnect_replaces_channel (demo_world []) 8 "D" "u2" "Bob" "t8" three_in_D).
  - exact three_in_D_well_formed.
  - simpl. tauto.
  - reflexivity.
Defined.

(* ================================================================= *)
(** ** Admission *)

Lemma truthy_some s : s <> EmptyString -> truthy (Some s) = true.
Proof. intros H. simpl. apply String.eqb_neq in H. now rewrite H. Qed.

Lemma existsb_eqb_In k (l : list string) : In k l -> existsb (String.eqb k) l = true.
Proof. apply mem_key_In. Qed.

Lemma channel_registered_other websocket document_id user_id user_name now self u :
  u <> user_id ->
  channel (registered websocket document_id user_id user_name now self) document_id u
  = channel self document_id u.
Proof.
  intros Hne. unfold channel, registered, room at 1; simpl.
  rewrite get_add_member_same. apply get_set_other. congruence.
Qed.

Lemma get_In_values {V} (d : dict V) k v : get d k = Some v -> In v (values d).
Proof.
  intros H. apply get_In in H. unfold values.
  apply in_map_iff. now exists (k, v).
Qed.

(** Past the checks of the endpoint: what is left is [connect] and the
    receive loop inside the outer [try]. *)
Lemma endpoint_admitted
    w websocket document_id token user_id username collaborators now inbound :
  token <> EmptyString ->
  jwt_decode w token = JwtPayload (Some user_id) (Some username) ->
  user_id <> EmptyString ->
  username <> EmptyString ->
  find_document w document_id = DbDocument collaborators ->
  In user_id collaborators ->
  websocket_endpoint w websocket document_id (Some token) now inbound
  = guarded websocket
      (connect w websocket document_id user_id username now ;;
       serve w document_id user_id inbound).
Proof.
  intros Htok Hjwt Hu Hn Hdoc Hcol.
  unfold websocket_endpoint, decode_jwt_token.
  rewrite (truthy_some _ Htok). cbn [negb text_of]. rewrite Hjwt.
  rewrite (truthy_some _ Hu), (truthy_some _ Hn). cbn [negb orb text_of].
  rewrite Hdoc, (existsb_eqb_In _ _ Hcol). reflexivity.
Qed.

(** An admission with a valid credential for a collaborator of an existing
    document, when the handshake and the sends to the room succeed, files
    exactly one member (the joining user, on the new channel, the other
    entries of the room untouched) and writes exactly one presence frame to
    every channel of the room, the joining one included; the frame carries
    the snapshot taken after the member was filed, and nothing else is sent
    before the endpoint waits for the first inbound frame. *)
Lemma admission_joins_and_announces
    w websocket document_id token user_id username collaborators now self :
  in_sync self ->
  token <> EmptyString ->
  jwt_decode w token = JwtPayload (Some user_id) (Some username) ->
  user_id <> EmptyString ->
  username <> EmptyString ->
  find_document w document_id = DbDocument collaborators ->
  In user_id collaborators ->
  accept_ok w websocket = true ->
  (forall c,
      In c (values (room (active_connections
                            (registered websocket document_id user_id username now self))
                      document_id)) ->
      send_ok w c = true) ->
  let joined := registered websocket document_id user_id username now self in
  websocket_endpoint w websocket document_id (Some token) now [] self
  = Outcome joined
      (Accept websocket ::
       map (fun c => SendText c (Presence (snapshot joined document_id)))
         (values (room (active_connections joined) document_id)))
      Awaiting
  /\ members joined document_id = add_key (members self document_id) user_id
  /\ channel joined document_id user_id = Some websocket
  /\ (forall u, u <> user_id ->
        channel joined document_id u = channel self document_id u)
  /\ In websocket (values (room (active_connections joined) document_id))
  /\ In (UserInfo.Build user_id username now) (snapshot joined document_id).
Proof.
  intros Hs Htok Hjwt Hu Hn Hdoc Hcol Hacc Hsend joined.
  repeat split.
  - rewrite (endpoint_admitted _ _ _ _ user_id username collaborators) by assumption.
    unfold guarded, try_except, seq.
    rewrite connect_delivers by auto. simpl.
    fold joined. now rewrite app_nil_r.
  - apply members_registered.
  - apply channel_registered.
  - intros u Hne. now apply channel_registered_other.
  - apply (get_In_values _ user_id). apply channel_registered.
  - unfold snapshot, joined, registered, room at 1; simpl.
    rewrite get_add_member_same. apply (get_In_values _ user_id), get_set_same.
Qed.

Lemma admission_joins_and_announces_witness :
  websocket_endpoint (demo_world []) 2 "D" (Some "bob") "t2" [] alice_in_D
  = Outcome (registered 2 "D" "u2" "Bob" "t2" alice_in_D)
      [Accept 2;
       SendText 1 (Presence [UserInfo.Build "u1" "Alice" "t1";
                             UserInfo.Build "u2" "Bob" "t2"]);
       SendText 2 (Presence [UserInfo.Build "u1" "Alice" "t1";
                             UserInfo.Build "u2" "Bob" "t2"])]
      Awaiting
  /\ members (registered 2 "D" "u2" "Bob" "t2" alice_in_D) "D" = ["u1"; "u2"].
Proof.
  pose proof (admission_joins_and_announces (demo_world []) 2 "D" "bob" "u2" "Bob"
                ["u1"; "u2"; "u3"] "t2" alice_in_D) as H.
  cbv zeta in H.
  destruct H as [H1 [H2 _]];
    [ solve [reflexivity | discriminate | simpl; tauto | intros c _; reflexivity] ..
    | split; [exact H1 | exact H2] ].
Defined.

(* ================================================================= *)
(** ** The relay *)

Lemma targets_others self document_id user_id :
  user_id <> EmptyString ->
  targets (Some user_id) (room (active_connections self) document_id)
  = others self document_id user_id.
Proof.
  intros Hne. unfold targets, others. f_equal. apply filter_ext.
  intros [k c]; simpl. apply String.eqb_neq in Hne. now rewrite Hne.
Qed.

(** A broadcast returns or stops on the iterator's [RuntimeError]. *)
Lemma broadcast_loop_result w msg document_id exclude_user used pending live self :
  result_of (broadcast_loop w msg document_id exclude_user used pending live self)
  = Returned
  \/ result_of (broadcast_loop w msg document_id exclude_user used pending live self)
     = Raised RuntimeError.
Proof.
  revert live self. induction pending as [|[u c] rest IH]; intros live self; simpl;
    destruct (negb (Nat.eqb (length live) used)); simpl; auto.
  destruct (excluded exclude_user u); auto.
  destruct (send_ok w c); unfold seq, emit, update; simpl; apply IH.
Qed.

Lemma broadcast_result w msg document_id exclude_user self :
  result_of (broadcast w msg document_id exclude_user self) = Returned
  \/ result_of (broadcast w msg document_id exclude_user self) = Raised RuntimeError.
Proof.
  unfold broadcast. destruct (get (active_connections self) document_id); [|now left].
  apply broadcast_loop_result.
Qed.





(** One text frame that [json.loads] accepts, seen from the endpoint: the
    broadcast, and the close of the sender when the broadcast raised. *)
Lemma session_text w websocket document_id user_id data self :
  json_loads w data = true ->
  session w websocket document_id user_id [Text data] self
  = match result_of (broadcast w (Raw data) document_id (Some user_id) self) with
    | Raised RuntimeError =>
        Outcome (state (broadcast w (Raw data) document_id (Some user_id) self))
          (effects (broadcast w (Raw data) document_id (Some user_id) self)
           ++ [LogError RuntimeError; Close websocket 1011 "Internal error"])
          Returned
    | _ =>
        Outcome (state (broadcast w (Raw data) document_id (Some user_id) self))
          (effects (broadcast w (Raw data) document_id (Some user_id) self))
          Awaiting
    end.
Proof.
  intros Hj. unfold session, guarded, serve, try_except; simpl.
  rewrite Hj. unfold seq, done, await_frame, emit; simpl.
  destruct (broadcast_result w (Raw data) document_id (Some user_id) self) as [H | H];
    destruct (broadcast w (Raw data) document_id (Some user_id) self) as [s e r];
    simpl in *; subst r; simpl; now rewrite ?app_nil_r.
Qed.

(** C1, as amended: for every inbound text frame from an Active member
    that [json.loads] accepts, when the sends succeed, the hub writes the
    received text unchanged to the channel of every other entry of the
    room's connection map, once each and in map order, writes it to no entry
    filed under the sender's user id, changes nothing in the registry and
    goes on waiting for the sender's next frame. *)
Theorem relay_reaches_everyone_else w websocket document_id user_id data self :
  user_id <> EmptyString ->
  json_loads w data = true ->
  (forall c, In c (others self document_id user_id) -> send_ok w c = true) ->
  session w websocket document_id user_id [Text data] self
  = Outcome self
      (map (fun c => SendText c (Raw data)) (others self document_id user_id))
      Awaiting.
Proof.
  intros Hu Hj Hok. rewrite session_text by assumption.
  rewrite broadcast_delivers by (now rewrite targets_others).
  simpl. now rewrite targets_others.
Qed.

Lemma relay_reaches_everyone_else_witness :
  session (demo_world []) 1 "D" "u1" [Text "[1,2]"] three_in_D
  = Outcome three_in_D [SendText 2 (Raw "[1,2]"); SendText 3 (Raw "[1,2]")] Awaiting.
Proof.
  apply (relay_reaches_everyone_else (demo_world []) 1 "D" "u1" "[1,2]" three_in_D).
  - discriminate.
  - vm_compute; reflexivity.
  - intros c _. reflexivity.
Defined.

(** C1, as stated, fails: the text [hello] sent by u1, an Active member of
    room D, reaches neither of the two other members; the hub logs the
    decoding error and closes the sender. *)
Lemma relay_drops_non_json :
  others three_in_D "D" "u1" = [2; 3]
  /\ json_loads (demo_world []) "hello" = false
  /\ effects (session (demo_world []) 1 "D" "u1" [Text "hello"] three_in_D)
     = [LogError JSONDecodeError; Close 1 1011 "Internal error"].
Proof. repeat split; vm_compute; reflexivity. Qed.




(* ================================================================= *)
(** ** Where the endpoint departs from the specification *)

Lemma seq_effects_prefix c1 c2 self :
  exists rest, effects ((c1 ;; c2) self) = effects (c1 self) ++ rest.
Proof.
  unfold seq. destruct (result_of (c1 self)); simpl; eauto.
  all: exists []; now rewrite app_nil_r.
Qed.

Lemma try_effects_prefix c catches handler self :
  exists rest, effects (try_except c catches handler self) = effects (c self) ++ rest.
Proof.
  unfold try_except. destruct (result_of (c self)); simpl;
    try (exists []; now rewrite app_nil_r).
  destruct (catches e); simpl; eauto. exists []; now rewrite app_nil_r.
Qed.

(** An admission that stops before the handshake leaves the registry as it
    found it. *)
Lemma rejection_keeps_registry w websocket document_id token now inbound self :
  ~ In (Accept websocket)
      (effects (websocket_endpoint w websocket document_id token now inbound self)) ->
  state (websocket_endpoint w websocket document_id token now inbound self) = self.
Proof.
  unfold websocket_endpoint.
  destruct (negb (truthy token)); [reflexivity|].
  destruct (decode_jwt_token w (text_of token)) as [[user_id username]|e];
    [|reflexivity].
  destruct (negb (truthy user_id) || negb (truthy username)); [reflexivity|].
  destruct (find_document w document_id); try reflexivity.
  destruct (negb (existsb (String.eqb (text_of user_id)) collaborators));
    [reflexivity|].
  intros Hno. unfold guarded in *.
  destruct (accept_ok w websocket) eqn:Hacc.
  - exfalso. apply Hno.
    destruct (try_effects_prefix
                (connect w websocket document_id (text_of user_id) (text_of username) now ;;
                 serve w document_id (text_of user_id) inbound)
                (fun _ => true)
                (fun e => emit (LogError e) ;; emit (Close websocket 1011 "Internal error"))
                self) as [r1 ->].
    destruct (seq_effects_prefix
                (connect w websocket document_id (text_of user_id) (text_of username) now)
                (serve w document_id (text_of user_id) inbound) self) as [r2 ->].
    unfold connect. rewrite Hacc.
    destruct (seq_effects_prefix (emit (Accept websocket))
                (register websocket document_id (text_of user_id) (text_of username) now ;;
                 broadcast_presence w document_id) self) as [r3 ->].
    simpl. now left.
  - unfold try_except, seq, connect. rewrite Hacc. reflexivity.
Qed.

(** C2 on the code: u1 relays to room D while the send to u2 fails.  u2 is
    removed, the iterator raises, u3 is never written to, and the sender is
    closed for an internal error. *)
Theorem failed_send_stops_the_relay :
  broadcast (demo_world [2]) (Raw "[1,2]") "D" (Some "u1") three_in_D
  = Outcome (disconnect "D" "u2" three_in_D) [] (Raised RuntimeError)
  /\ members (disconnect "D" "u2" three_in_D) "D" = ["u1"; "u3"]
  /\ others three_in_D "D" "u1" = [2; 3]
  /\ session (demo_world [2]) 1 "D" "u1" [Text "[1,2]"] three_in_D
     = Outcome (disconnect "D" "u2" three_in_D)
         [LogError RuntimeError; Close 1 1011 "Internal error"] Returned.
Proof. repeat split; vm_compute; reflexivity. Qed.

(** C3 on the code: a graceful close of u2 removes the entry and announces
    the new snapshot to u1 and u3; a receive error or a frame that is not
    JSON closes u2 and leaves its entry in the registry with no presence
    frame sent; a failed send to u3 during a relay of u1 removes u3 without
    a presence frame and closes u1, whose entry stays; and a join of u2 on
    channel 7 whose presence broadcast meets the broken channel of u1 is
    closed for an internal error with its entry left in the registry. *)
Theorem fault_leaves_registry_entry :
  session (demo_world []) 2 "D" "u2" [Disconnect] three_in_D
  = Outcome (disconnect "D" "u2" three_in_D)
      [SendText 1 (Presence [UserInfo.Build "u1" "Alice" "t1";
                             UserInfo.Build "u3" "Carol" "t3"]);
       SendText 3 (Presence [UserInfo.Build "u1" "Alice" "t1";
                             UserInfo.Build "u3" "Carol" "t3"])]
      Returned
  /\ session (demo_world []) 2 "D" "u2" [Broken] three_in_D
     = Outcome three_in_D
         [LogError TransportError; Close 2 1011 "Internal error"] Returned
  /\ session (demo_world []) 2 "D" "u2" [Text "{"] three_in_D
     = Outcome three_in_D
         [LogError JSONDecodeError; Close 2 1011 "Internal error"] Returned
  /\ channel three_in_D "D" "u2" = Some 2
  /\ session (demo_world [3]) 1 "D" "u1" [Text "{}"] three_in_D
     = Outcome (disconnect "D" "u3" three_in_D)
         [SendText 2 (Raw "{}"); LogError RuntimeError;
          Close 1 1011 "Internal error"] Returned
  /\ members (disconnect "D" "u3" three_in_D) "D" = ["u1"; "u2"]
  /\ effects (websocket_endpoint (demo_world [1]) 7 "D" (Some "bob") "t7" [] three_in_D)
     = [Accept 7; LogError RuntimeError; Close 7 1011 "Internal error"]
  /\ channel (state (websocket_endpoint (demo_world [1]) 7 "D" (Some "bob") "t7" []
                       three_in_D)) "D" "u2" = Some 7.
Proof. repeat split; vm_compute; reflexivity. Qed.

(** A token that [decode_jwt_token] refuses: the exception it raises is
    caught by the outer [try] of the endpoint. *)
Lemma refused_token_closes_1011 w websocket document_id token e now inbound self :
  token <> EmptyString ->
  decode_jwt_token w token = inr e ->
  websocket_endpoint w websocket document_id (Some token) now inbound self
  = Outcome self [LogError e; Close websocket 1011 "Internal error"] Returned.
Proof.
  intros Htok He. unfold websocket_endpoint.
  rewrite (truthy_some _ Htok). cbn [negb text_of]. rewrite He. reflexivity.
Qed.

(** C6 on the code: bob, a collaborator of D with a valid credential, joins
    on the healthy channel 2 while alice is in the room on a channel whose
    send fails.  The member is filed and the handshake done, but the
    presence broadcast stops at alice's channel: bob is sent no presence
    frame, alice is removed, and bob's stream is closed for an internal
    error with his entry left in the registry.  With alice's channel
    healthy the same join is announced to both. *)
Theorem join_beside_broken_peer_is_not_announced :
  websocket_endpoint (demo_world [1]) 2 "D" (Some "bob") "t2" [] alice_in_D
  = Outcome (disconnect "D" "u1" (registered 2 "D" "u2" "Bob" "t2" alice_in_D))
      [Accept 2; LogError RuntimeError; Close 2 1011 "Internal error"] Returned
  /\ members (registered 2 "D" "u2" "Bob" "t2" alice_in_D) "D" = ["u1"; "u2"]
  /\ members (disconnect "D" "u1" (registered 2 "D" "u2" "Bob" "t2" alice_in_D)) "D"
     = ["u2"]
  /\ channel (disconnect "D" "u1" (registered 2 "D" "u2" "Bob" "t2" alice_in_D))
       "D" "u2" = Some 2
  /\ effects (websocket_endpoint (demo_world []) 2 "D" (Some "bob") "t2" [] alice_in_D)
     = [Accept 2;
        SendText 1 (Presence [UserInfo.Build "u1" "Alice" "t1";
                              UserInfo.Build "u2" "Bob" "t2"]);
        SendText 2 (Presence [UserInfo.Build "u1" "Alice" "t1";
                              UserInfo.Build "u2" "Bob" "t2"])].
Proof. repeat split; vm_compute; reflexivity. Qed.

(** C5 on the code: the reasons the endpoint closes a refused stream with.
    An expired token and a token that does not decode are closed as
    [Internal error], the reason of a failing document store (what is
    logged is the 401 of [decode_jwt_token] for the first and its
    [AttributeError] for the second); only a decoded token without a user
    id or a user name is closed as [Invalid token].
    None of the six touches the registry. *)
Theorem invalid_credential_closes_as_internal_error :
  websocket_endpoint (demo_world []) 7 "D" None "t7" [] three_in_D
  = Outcome three_in_D [Close 7 1008 "Token required"] Returned
  /\ websocket_endpoint (demo_world []) 7 "D" (Some "stale") "t7" [] three_in_D
     = Outcome three_in_D
         [LogError (HTTPException 401 "Token expired");
          Close 7 1011 "Internal error"] Returned
  /\ websocket_endpoint (demo_world []) 7 "D" (Some "forged") "t7" [] three_in_D
     = Outcome three_in_D
         [LogError AttributeError; Close 7 1011 "Internal error"] Returned
  /\ websocket_endpoint (demo_world []) 7 "D" (Some "nameless") "t7" [] three_in_D
     = Outcome three_in_D [Close 7 1008 "Invalid token"] Returned
  /\ websocket_endpoint (demo_world []) 7 "D" (Some "mallory") "t7" [] three_in_D
     = Outcome three_in_D [Close 7 1008 "Access denied"] Returned
  /\ websocket_endpoint (demo_world []) 7 "down" (Some "alice") "t7" [] three_in_D
     = Outcome three_in_D
         [LogError TransportError; Close 7 1011 "Internal error"] Returned.
Proof. repeat split; vm_compute; reflexivity. Qed.

(* ================================================================= *)
(** ** Further properties of the ConnectionManager *)

Section LeavingTwice.
Context {V : Type}.
Implicit Types (d : dict (dict V)).

Lemma contains_del_same (r : dict V) k : contains (del r k) k = false.
Proof. unfold contains. now rewrite get_del_same. Qed.

Lemma leave_fixed d document_id user_id :
  (forall r, get d document_id = Some r -> contains r user_id = false /\ r <> []) ->
  clean_room (del_member d document_id user_id) document_id = d.
Proof.
  intros H. unfold clean_room, del_member.
  destruct (get d document_id) as [r|] eqn:E.
  - destruct (H r eq_refl) as [Hc Hne]. rewrite Hc, E.
    destruct r; [congruence | reflexivity].
  - now rewrite E.
Qed.

Lemma leave_twice d document_id user_id :
  clean_room
    (del_member (clean_room (del_member d document_id user_id) document_id)
       document_id user_id) document_id
  = clean_room (del_member d document_id user_id) document_id.
Proof.
  apply leave_fixed. intros r. rewrite get_leave_same.
  destruct (get d document_id) as [r0|]; [|discriminate].
  destruct (is_empty (del r0 user_id)) eqn:Em; [discriminate|].
  intros [= <-]. split; [apply contains_del_same|].
  intros Heq. rewrite Heq in Em. discriminate.
Qed.

End LeavingTwice.

(** X1: [disconnect] is idempotent, whatever the registry, and leaves the
    rooms of the other documents as they are in both maps. *)
Theorem disconnect_idempotent document_id user_id self :
  disconnect document_id user_id (disconnect document_id user_id self)
  = disconnect document_id user_id self
  /\ forall other,
       other <> document_id ->
       get (active_connections (disconnect document_id user_id self)) other
       = get (active_connections self) other
       /\ get (user_info (disconnect document_id user_id self)) other
          = get (user_info self) other.
Proof.
  split.
  - unfold disconnect; simpl. now rewrite !leave_twice.
  - intros other Hne. unfold disconnect; simpl.
    split; apply get_leave_other; congruence.
Qed.

(** X2: in a well-formed registry, [disconnect] of a user who is not in the
    room (or of a room that does not exist) changes nothing. *)
Theorem disconnect_absent_is_noop document_id user_id self :
  well_formed self ->
  ~ In user_id (members self document_id) ->
  disconnect document_id user_id self = self.
Proof.
  intros Hwf Hno. pose proof Hwf as [Hs [_ Hr] _].
  pose proof (rooms_ok_user_info self Hs (wf_rooms _ Hwf)) as [_ Hr'].
  unfold disconnect. destruct self as [ac ui]; simpl in *. f_equal.
  - apply leave_fixed. intros r E. split; [|now apply (Hr _ _ E)].
    rewrite contains_keys. apply not_true_is_false. rewrite mem_key_In.
    unfold members, room in Hno; simpl in Hno. now rewrite E in Hno.
  - apply leave_fixed. intros r E. split; [|now apply (Hr' _ _ E)].
    rewrite contains_keys. apply not_true_is_false. rewrite mem_key_In.
    unfold members in Hno.
    rewrite (in_sync_room_keys (Manager ac ui) document_id Hs) in Hno.
    unfold room in Hno; simpl in Hno. now rewrite E in Hno.
Qed.

Lemma disconnect_absent_is_noop_witness :
  disconnect "D" "u9" three_in_D = three_in_D
  /\ disconnect "E" "u1" three_in_D = three_in_D.
Proof.
  split.
  - apply (disconnect_absent_is_noop "D" "u9" three_in_D three_in_D_well_formed).
    simpl. intuition discriminate.
  - apply (disconnect_absent_is_noop "E" "u1" three_in_D three_in_D_well_formed).
    simpl. tauto.
Defined.

(** Either every target of a fan-out accepts its frame, or there is a first
    one that does not. *)
Lemma first_failure w exclude_user (r : dict WebSocket) :
  (forall c, In c (targets exclude_user r) -> send_ok w c = true)
  \/ exists before user_id websocket rest,
       r = before ++ (user_id, websocket) :: rest
       /\ excluded exclude_user user_id = false
       /\ send_ok w websocket = false
       /\ forall c, In c (targets exclude_user before) -> send_ok w c = true.
Proof.
  induction r as [|[u c] r IH].
  - left. intros c [].
  - destruct (excluded exclude_user u) eqn:Ex.
    + destruct IH as [IH | (before & u' & c' & rest & -> & H1 & H2 & H3)].
      * left. now rewrite targets_cons, Ex.
      * right. exists ((u, c) :: before), u', c', rest.
        split; [reflexivity | split; [assumption | split; [assumption|]]].
        now rewrite targets_cons, Ex.
    + destruct (send_ok w c) eqn:Hc.
      * destruct IH as [IH | (before & u' & c' & rest & -> & H1 & H2 & H3)].
        -- left. rewrite targets_cons, Ex. intros c0 [<- | H]; auto.
        -- right. exists ((u, c) :: before), u', c', rest.
           split; [reflexivity | split; [assumption | split; [assumption|]]].
           rewrite targets_cons, Ex. intros c0 [<- | H]; auto.
      * right. exists [], u, c, r.
        split; [reflexivity | split; [assumption | split; [assumption|]]].
        intros c0 [].
Qed.

(** X3: the two ways a [broadcast] ends, whatever the sends do.  Either every
    target accepts its frame: all targets are written to, in order, the
    registry is unchanged and the call returns.  Or there is a first target
    whose send fails: the targets before it have been written to, that
    member alone has been removed through [disconnect], nothing is written
    after it, and the call raises [RuntimeError]. *)
Theorem broadcast_returns_or_aborts w msg document_id exclude_user self :
  ((forall c,
       In c (targets exclude_user (room (active_connections self) document_id)) ->
       send_ok w c = true)
   /\ broadcast w msg document_id exclude_user self
      = Outcome self
          (map (fun c => SendText c msg)
             (targets exclude_user (room (active_connections self) document_id)))
          Returned)
  \/ exists before user_id websocket rest,
       room (active_connections self) document_id
       = before ++ (user_id, websocket) :: rest
       /\ excluded exclude_user user_id = false
       /\ send_ok w websocket = false
       /\ (forall c, In c (targets exclude_user before) -> send_ok w c = true)
       /\ broadcast w msg document_id exclude_user self
          = Outcome (disconnect document_id user_id self)
              (map (fun c => SendText c msg) (targets exclude_user before))
              (Raised RuntimeError).
Proof.
  destruct (first_failure w exclude_user (room (active_connections self) document_id))
    as [Hok | (before & u & c & rest & Hr & Hex & Hfail & Hbefore)].
  - left. split; [exact Hok | now apply broadcast_delivers].
  - right. exists before, u, c, rest.
    split; [exact Hr | split; [assumption | split; [assumption | split; [assumption|]]]].
    apply broadcast_aborts with (websocket := c) (rest := rest); auto.
    unfold room in Hr.
    destruct (get (active_connections self) document_id) as [r|]; [now subst|].
    destruct before; discriminate.
Qed.

(** X4: an empty string as [exclude_user] excludes nobody, like [None]: the
    test of the loop is on the truth value of [exclude_user] first. *)
Theorem broadcast_empty_exclusion w msg document_id self :
  broadcast w msg document_id (Some EmptyString) self
  = broadcast w msg document_id None self.
Proof.
  unfold broadcast.
  destruct (get (active_connections self) document_id) as [r|]; [|reflexivity].
  generalize (length r). generalize r at 2 4. generalize self.
  induction r as [|[u c] r IH]; intros s live used; simpl;
    destruct (negb (Nat.eqb (length live) used)); auto.
  destruct (send_ok w c); unfold seq, emit, update; simpl; now rewrite IH.
Qed.

Lemma in_sync_registered websocket document_id user_id user_name now self :
  in_sync self ->
  in_sync (registered websocket document_id user_id user_name now self).
Proof.
  unfold in_sync, erase, registered; simpl. intros Hs.
  now rewrite !add_member_map, Hs.
Qed.

Lemma broadcast_presence_registered w websocket document_id user_id user_name now self :
  broadcast_presence w document_id
    (registered websocket document_id user_id user_name now self)
  = broadcast w
      (Presence (snapshot (registered websocket document_id user_id user_name now self)
                   document_id))
      document_id None
      (registered websocket document_id user_id user_name now self).
Proof.
  unfold broadcast_presence, snapshot, room, registered; simpl.
  now rewrite get_add_member_same.
Qed.

(** [connect] once the handshake has succeeded: the handshake, then the
    presence broadcast on the registry with the member filed. *)
Lemma connect_accepted w websocket document_id user_id user_name now self :
  in_sync self ->
  accept_ok w websocket = true ->
  connect w websocket document_id user_id user_name now self
  = Outcome
      (state (broadcast_presence w document_id
                (registered websocket document_id user_id user_name now self)))
      (Accept websocket ::
       effects (broadcast_presence w document_id
                  (registered websocket document_id user_id user_name now self)))
      (result_of (broadcast_presence w document_id
                    (registered websocket document_id user_id user_name now self))).
Proof.
  intros Hs Hacc. unfold connect. rewrite Hacc.
  unfold seq at 1. unfold emit at 1. simpl.
  unfold seq. rewrite register_in_sync by assumption. simpl.
  now destruct (broadcast_presence w document_id
                  (registered websocket document_id user_id user_name now self)).
Qed.

(** X5: the three ways a [connect] ends on a registry whose maps agree.
    The handshake fails: nothing is filed or sent and the exception leaves
    the call.  Or the member is filed and every send of the presence
    broadcast succeeds: each channel of the room gets the new snapshot once.
    Or the member is filed and a send fails: the channels before the broken
    one have the snapshot, the broken member alone is removed, the channels
    after it (the joining one, when it is new, among them) get nothing and
    the call raises [RuntimeError]. *)
Theorem connect_outcomes w websocket document_id user_id user_name now self :
  in_sync self ->
  (accept_ok w websocket = false
   /\ connect w websocket document_id user_id user_name now self
      = Outcome self [] (Raised TransportError))
  \/ (accept_ok w websocket = true
      /\ (forall c,
             In c (values (room (active_connections
                                   (registered websocket document_id user_id user_name
                                      now self)) document_id)) ->
             send_ok w c = true)
      /\ connect w websocket document_id user_id user_name now self
         = Outcome (registered websocket document_id user_id user_name now self)
             (Accept websocket ::
              map (fun c =>
                     SendText c
                       (Presence (snapshot (registered websocket document_id user_id
                                              user_name now self) document_id)))
                (values (room (active_connections
                                 (registered websocket document_id user_id user_name
                                    now self)) document_id)))
             Returned)
  \/ (accept_ok w websocket = true
      /\ exists before broken_user broken rest,
           room (active_connections
                   (registered websocket document_id user_id user_name now self))
             document_id
           = before ++ (broken_user, broken) :: rest
           /\ send_ok w broken = false
           /\ (forall c, In c (values before) -> send_ok w c = true)
           /\ connect w websocket document_id user_id user_name now self
              = Outcome
                  (disconnect document_id broken_user
                     (registered websocket document_id user_id user_name now self))
                  (Accept websocket ::
                   map (fun c =>
                          SendText c
                            (Presence (snapshot (registered websocket document_id
                                                   user_id user_name now self)
                                         document_id)))
                     (values before))
                  (Raised RuntimeError)).
Proof.
  intros Hs. destruct (accept_ok w websocket) eqn:Hacc.
  - right.
    destruct (first_failure w None
                (room (active_connections
                         (registered websocket document_id user_id user_name now self))
                   document_id))
      as [Hok | (before & u & c & rest & Hr & _ & Hfail & Hbefore)].
    + left. rewrite targets_None in Hok. split; [reflexivity | split; [exact Hok|]].
      now apply connect_delivers.
    + right. split; [reflexivity|]. exists before, u, c, rest.
      rewrite targets_None in Hbefore.
      split; [exact Hr | split; [exact Hfail | split; [exact Hbefore|]]].
      rewrite connect_accepted, broadcast_presence_registered by assumption.
      rewrite (broadcast_aborts w _ document_id None before u c rest); auto.
      * simpl. now rewrite targets_None.
      * unfold room in Hr.
        destruct (get (active_connections
                         (registered websocket document_id user_id user_name now self))
                    document_id) as [r|]; [now subst|].
        destruct before; discriminate.
      * now rewrite targets_None.
  - left. split; [reflexivity|]. unfold connect. rewrite Hacc. reflexivity.
Qed.

Lemma connect_outcomes_witness :
  connect (demo_world [1]) 7 "D" "u9" "Mallory" "t7" three_in_D
  = Outcome (disconnect "D" "u1" (registered 7 "D" "u9" "Mallory" "t7" three_in_D))
      [Accept 7] (Raised RuntimeError)
  /\ members (disconnect "D" "u1" (registered 7 "D" "u9" "Mallory" "t7" three_in_D)) "D"
     = ["u2"; "u3"; "u9"].
Proof.
  destruct (connect_outcomes (demo_world [1]) 7 "D" "u9" "Mallory" "t7" three_in_D)
    as [[Hacc _] | [(_ & Hok & _) | (_ & before & u & c & rest & Hr & Hf & Hb & Hc)]].
  - reflexivity.
  - discriminate Hacc.
  - specialize (Hok 1). simpl in Hok. discriminate Hok. now left.
  - split; [|reflexivity]. rewrite Hc.
    destruct before as [|[u' c'] before].
    + injection Hr as <- <- <-. reflexivity.
    + injection Hr as <- <- Hr. specialize (Hb 1). simpl in Hb.
      discriminate Hb. now left.
Defined.

(* ================================================================= *)
(** ** Further properties of the endpoint *)

(** A close frame, seen from the endpoint: [disconnect], the presence
    broadcast, and the close of the stream when that broadcast raised. *)
Lemma session_disconnect w websocket document_id user_id rest self :
  session w websocket document_id user_id (Disconnect :: rest) self
  = match result_of (broadcast_presence w document_id
                       (disconnect document_id user_id self)) with
    | Raised e =>
        Outcome
          (state (broadcast_presence w document_id (disconnect document_id user_id self)))
          (effects (broadcast_presence w document_id
                      (disconnect document_id user_id self))
           ++ [LogError e; Close websocket 1011 "Internal error"])
          Returned
    | r =>
        Outcome
          (state (broadcast_presence w document_id (disconnect document_id user_id self)))
          (effects (broadcast_presence w document_id
                      (disconnect document_id user_id self)))
          r
    end.
Proof.
  unfold session, guarded, serve, try_except; simpl.
  unfold seq, raise, update, emit; simpl.
  destruct (broadcast_presence w document_id (disconnect document_id user_id self))
    as [s e r]; destruct r; simpl; now rewrite ?app_nil_r.
Qed.

Lemma channel_none_disconnect document_id' user_id' self document_id user_id :
  channel self document_id user_id = None ->
  channel (disconnect document_id' user_id' self) document_id user_id = None.
Proof.
  intros H.
  destruct (channel (disconnect document_id' user_id' self) document_id user_id)
    as [c|] eqn:E; [|reflexivity].
  apply channel_disconnect in E. congruence.
Qed.

Lemma channel_disconnect_same document_id user_id self :
  channel (disconnect document_id user_id self) document_id user_id = None.
Proof.
  unfold channel, disconnect; simpl. rewrite room_leave_same. apply get_del_same.
Qed.

Lemma session_disconnect_state w websocket document_id user_id rest self :
  state (session w websocket document_id user_id (Disconnect :: rest) self)
  = state (broadcast_presence w document_id (disconnect document_id user_id self)).
Proof.
  rewrite session_disconnect.
  now destruct (result_of (broadcast_presence w document_id
                             (disconnect document_id user_id self))).
Qed.

(** X6: a graceful close on a registry whose maps agree, when the sends to
    the members that remain succeed: the entry of the closing user is
    removed, every remaining channel of the room is written the snapshot
    taken after the removal, once and in map order, the frames that follow
    the close are never read, and the endpoint returns without closing the
    stream itself. *)
Theorem graceful_close_announces w websocket document_id user_id rest self :
  in_sync self ->
  (forall c,
      In c (values (room (active_connections (disconnect document_id user_id self))
                      document_id)) ->
      send_ok w c = true) ->
  session w websocket document_id user_id (Disconnect :: rest) self
  = Outcome (disconnect document_id user_id self)
      (map (fun c =>
              SendText c (Presence (snapshot (disconnect document_id user_id self)
                                      document_id)))
         (values (room (active_connections (disconnect document_id user_id self))
                    document_id)))
      Returned
  /\ members (disconnect document_id user_id self) document_id
     = del_key (members self document_id) user_id.
Proof.
  intros Hs Hok. split; [|apply members_disconnect].
  rewrite session_disconnect.
  rewrite broadcast_presence_delivers; auto. now apply in_sync_disconnect.
Qed.

Lemma graceful_close_announces_witness :
  session (demo_world []) 2 "D" "u2" [Disconnect; Text "[1,2]"] three_in_D
  = Outcome (disconnect "D" "u2" three_in_D)
      [SendText 1 (Presence [UserInfo.Build "u1" "Alice" "t1";
                             UserInfo.Build "u3" "Carol" "t3"]);
       SendText 3 (Presence [UserInfo.Build "u1" "Alice" "t1";
                             UserInfo.Build "u3" "Carol" "t3"])]
      Returned
  /\ members (disconnect "D" "u2" three_in_D) "D" = ["u1"; "u3"].
Proof.
  apply (graceful_close_announces (demo_world []) 2 "D" "u2" [Text "[1,2]"] three_in_D).
  - reflexivity.
  - intros c _. reflexivity.
Defined.

(** X7: [disconnect] goes by user id, not by connection.  When a user who is
    in the room connects again, the new channel replaces the old one; when
    the old connection then closes, its handler removes the entry of the
    user, that is the entry of the new connection, which stays open with no
    entry in the registry. *)
Theorem close_of_replaced_connection_unregisters_new
    w w' old websocket document_id user_id user_name now rest self :
  in_sync self ->
  accept_ok w websocket = true ->
  (forall c,
      In c (values (room (active_connections
                            (registered websocket document_id user_id user_name now self))
                      document_id)) ->
      send_ok w c = true) ->
  channel (state (connect w websocket document_id user_id user_name now self))
    document_id user_id = Some websocket
  /\ channel
       (state (session w' old document_id user_id (Disconnect :: rest)
                 (state (connect w websocket document_id user_id user_name now self))))
       document_id user_id = None.
Proof.
  intros Hs Hacc Hok. split.
  - rewrite connect_delivers by assumption. apply channel_registered.
  - rewrite session_disconnect_state.
    apply (preserves_broadcast_presence
             (fun s => channel s document_id user_id = None)).
    + intros d u s H. now apply channel_none_disconnect.
    + apply channel_disconnect_same.
Qed.

Lemma close_of_replaced_connection_unregisters_new_witness :
  channel (state (connect (demo_world []) 8 "D" "u2" "Bob" "t8" three_in_D)) "D" "u2"
  = Some 8
  /\ channel
       (state (session (demo_world []) 2 "D" "u2" [Disconnect]
                 (state (connect (demo_world []) 8 "D" "u2" "Bob" "t8" three_in_D))))
       "D" "u2" = None.
Proof.
  apply (close_of_replaced_connection_unregisters_new
           (demo_world []) (demo_world []) 2 8 "D" "u2" "Bob" "t8" [] three_in_D).
  - reflexivity.
  - reflexivity.
  - intros c _. reflexivity.
Defined.

(** X8: the receive loop serves the frames in order and stops at the first
    one that does not return: when the turn for a frame returns, the rest of
    the frames is served on the registry it leaves and the effects follow
    one another; when it raises, the frames after it are never read. *)
Theorem frames_served_in_order w websocket document_id user_id f rest self :
  (result_of (receive_one w document_id user_id f self) = Returned ->
   session w websocket document_id user_id (f :: rest) self
   = Outcome
       (state (session w websocket document_id user_id rest
                 (state (receive_one w document_id user_id f self))))
       (effects (receive_one w document_id user_id f self)
        ++ effects (session w websocket document_id user_id rest
                      (state (receive_one w document_id user_id f self))))
       (result_of (session w websocket document_id user_id rest
                     (state (receive_one w document_id user_id f self)))))
  /\ (result_of (receive_one w document_id user_id f self) <> Returned ->
      session w websocket document_id user_id (f :: rest) self
      = session w websocket document_id user_id [f] self).
Proof.
  unfold session, guarded, serve, try_except. simpl receive_loop. unfold seq.
  destruct (receive_one w document_id user_id f self) as [s1 e1 r1]; simpl.
  split; intros H.
  - subst r1; simpl.
    destruct (receive_loop w document_id user_id rest s1) as [s2 e2 r2]; simpl.
    destruct r2 as [| e |]; simpl; try reflexivity.
    destruct (is_disconnect e); simpl.
    + destruct (broadcast_presence w document_id (disconnect document_id user_id s2))
        as [s3 e3 r3]; simpl.
      destruct r3; simpl; now rewrite <- ?app_assoc.
    + now rewrite <- ?app_assoc.
  - destruct r1 as [| e |]; simpl; [congruence | reflexivity | reflexivity].
Qed.

Lemma truthy_inv s : truthy s = true -> exists t, s = Some t /\ t <> EmptyString.
Proof.
  destruct s as [t|]; simpl; [|discriminate].
  intros H. exists t; split; auto. intros ->. discriminate.
Qed.

Ltac no_accept :=
  let H := fresh in
  simpl; intros H;
  repeat (destruct H as [H | H]; [discriminate H|]); destruct H.

(** What the endpoint has checked when it performs the handshake. *)
Lemma accept_conditions w websocket document_id token now inbound self :
  In (Accept websocket)
    (effects (websocket_endpoint w websocket document_id token now inbound self)) ->
  exists t user_id username collaborators,
    token = Some t /\ t <> EmptyString
    /\ jwt_decode w t = JwtPayload (Some user_id) (Some username)
    /\ user_id <> EmptyString /\ username <> EmptyString
    /\ find_document w document_id = DbDocument collaborators
    /\ In user_id collaborators
    /\ accept_ok w websocket = true.
Proof.
  unfold websocket_endpoint.
  destruct (truthy token) eqn:Ht; simpl;
    [|no_accept].
  destruct (truthy_inv _ Ht) as [t [-> Hne]]. cbn [text_of].
  unfold decode_jwt_token.
  destruct (jwt_decode w t) as [user_id username | |] eqn:Hj;
    try no_accept.
  destruct (truthy user_id) eqn:Hu; simpl;
    [|no_accept].
  destruct (truthy username) eqn:Hn; simpl;
    [|no_accept].
  destruct (truthy_inv _ Hu) as [u [-> Hune]].
  destruct (truthy_inv _ Hn) as [n [-> Hnne]]. cbn [text_of].
  destruct (find_document w document_id) as [collaborators | |] eqn:Hd;
    try no_accept.
  destruct (existsb (String.eqb u) collaborators) eqn:Hc; simpl;
    [|no_accept].
  destruct (accept_ok w websocket) eqn:Hacc.
  - intros _. exists t, u, n, collaborators.
    split; [reflexivity|]. split; [exact Hne|].
    split; [first [exact Hj | reflexivity]|].
    split; [exact Hune|]. split; [exact Hnne|].
    split; [first [exact Hd | reflexivity]|].
    split; [now apply mem_key_In | reflexivity].
  - unfold guarded, try_except, seq, connect. rewrite Hacc. simpl.
    no_accept.
Qed.

(** X9: the endpoint performs the handshake only for a caller it has fully
    checked: a non-empty token that decodes to a non-empty user id and user
    name, for a document the store has, whose collaborators include that
    user id.  No other caller is ever accepted. *)
Theorem accept_requires_collaborator w websocket document_id token now inbound self :
  In (Accept websocket)
    (effects (websocket_endpoint w websocket document_id token now inbound self)) ->
  exists t user_id username collaborators,
    token = Some t /\ t <> EmptyString
    /\ jwt_decode w t = JwtPayload (Some user_id) (Some username)
    /\ user_id <> EmptyString /\ username <> EmptyString
    /\ find_document w document_id = DbDocument collaborators
    /\ In user_id collaborators
    /\ accept_ok w websocket = true.
Proof. apply accept_conditions. Qed.

Lemma accept_requires_collaborator_witness :
  exists t user_id username collaborators,
    Some "bob" = Some t /\ t <> EmptyString
    /\ jwt_decode (demo_world []) t = JwtPayload (Some user_id) (Some username)
    /\ user_id <> EmptyString /\ username <> EmptyString
    /\ find_document (demo_world []) "D" = DbDocument collaborators
    /\ In user_id collaborators
    /\ accept_ok (demo_world []) 2 = true.
Proof.
  apply (accept_requires_collaborator (demo_world []) 2 "D" (Some "bob") "t2" []
           alice_in_D).
  vm_compute. now left.
Defined.

(** X10: a stream the endpoint does not accept changes nothing and is sent
    nothing: the registry is as it was, no frame is written to any channel,
    and the only thing the stream gets is its close. *)
Theorem refused_stream_changes_nothing w websocket document_id token now inbound self :
  ~ In (Accept websocket)
      (effects (websocket_endpoint w websocket document_id token now inbound self)) ->
  state (websocket_endpoint w websocket document_id token now inbound self) = self
  /\ result_of (websocket_endpoint w websocket document_id token now inbound self)
     = Returned
  /\ exists code reason logged,
       effects (websocket_endpoint w websocket document_id token now inbound self)
       = logged ++ [Close websocket code reason]
       /\ forall e, In e logged -> exists x, e = LogError x.
Proof.
  intros Hno. split; [now apply rejection_keeps_registry|]. revert Hno.
  unfold websocket_endpoint.
  destruct (negb (truthy token)).
  { intros _. split; [reflexivity|].
    exists 1008, "Token required", []. split; [reflexivity | intros e []]. }
  destruct (decode_jwt_token w (text_of token)) as [[user_id username]|e].
  2:{ intros _. split; [reflexivity|].
      exists 1011, "Internal error", [LogError e]. split; [reflexivity|].
      intros x [<- | []]. eauto. }
  destruct (negb (truthy user_id) || negb (truthy username)).
  { intros _. split; [reflexivity|].
    exists 1008, "Invalid token", []. split; [reflexivity | intros e []]. }
  destruct (find_document w document_id).
  2:{ intros _. split; [reflexivity|].
      exists 1008, "Access denied", []. split; [reflexivity | intros e []]. }
  2:{ intros _. split; [reflexivity|].
      exists 1011, "Internal error", [LogError TransportError].
      split; [reflexivity|]. intros x [<- | []]. eauto. }
  destruct (negb (existsb (String.eqb (text_of user_id)) collaborators)).
  { intros _. split; [reflexivity|].
    exists 1008, "Access denied", []. split; [reflexivity | intros e []]. }
  destruct (accept_ok w websocket) eqn:Hacc.
  - intros Hno. exfalso. apply Hno. unfold guarded.
    destruct (try_effects_prefix
                (connect w websocket document_id (text_of user_id) (text_of username) now ;;
                 serve w document_id (text_of user_id) inbound)
                (fun _ => true)
                (fun e => emit (LogError e) ;; emit (Close websocket 1011 "Internal error"))
                self) as [r1 ->].
    destruct (seq_effects_prefix
                (connect w websocket document_id (text_of user_id) (text_of username) now)
                (serve w document_id (text_of user_id) inbound) self) as [r2 ->].
    unfold connect. rewrite Hacc.
    destruct (seq_effects_prefix (emit (Accept websocket))
                (register websocket document_id (text_of user_id) (text_of username) now ;;
                 broadcast_presence w document_id) self) as [r3 ->].
    simpl. now left.
  - intros _. unfold guarded, try_except, seq, connect. rewrite Hacc. simpl.
    split; [reflexivity|].
    exists 1011, "Internal error", [LogError TransportError].
    split; [reflexivity|]. intros x [<- | []]. eauto.
Qed.

Lemma refused_stream_changes_nothing_witness :
  state (websocket_endpoint (demo_world []) 7 "D" (Some "mallory") "t7" [Text "{}"]
           three_in_D) = three_in_D
  /\ effects (websocket_endpoint (demo_world []) 7 "D" (Some "mallory") "t7" [Text "{}"]
                three_in_D) = [Close 7 1008 "Access denied"].
Proof.
  destruct (refused_stream_changes_nothing (demo_world []) 7 "D" (Some "mallory") "t7"
              [Text "{}"] three_in_D) as [H1 _].
  - vm_compute. intros [H | []]. discriminate H.
  - split; [exact H1 | reflexivity].
Defined.

(* ================================================================= *)
(** ** The REST routes *)

Section Collections.
Context {A : Type}.
Implicit Types (l : list A) (p q : A -> bool).

Lemma find_app_last p l x :
  find p (l ++ [x])
  = match find p l with
    | Some y => Some y
    | None => if p x then Some x else None
    end.
Proof.
  induction l as [|y l IH]; simpl; [reflexivity|].
  now destruct (p y).
Qed.

Lemma find_update_one_same p (f : A -> A) l :
  (forall x, p (f x) = p x) ->
  find p (Api.update_one p f l) = option_map f (find p l).
Proof.
  intros Hp. induction l as [|x l IH]; simpl; [reflexivity|].
  destruct (p x) eqn:Hx; simpl.
  - now rewrite Hp, Hx.
  - now rewrite Hx.
Qed.

Lemma find_update_one_other p q (f : A -> A) l :
  (forall x, p (f x) = p x) ->
  (forall x, q x = true -> p x = false) ->
  find p (Api.update_one q f l) = find p l.
Proof.
  intros Hp Hq. induction l as [|x l IH]; simpl; [reflexivity|].
  destruct (q x) eqn:Hx; simpl.
  - now rewrite Hp, (Hq x Hx).
  - now rewrite IH.
Qed.

Lemma find_delete_one_other p q l :
  (forall x, q x = true -> p x = false) ->
  find p (Api.delete_one q l) = find p l.
Proof.
  intros H. induction l as [|x l IH]; simpl; [reflexivity|].
  destruct (q x) eqn:Hq; simpl.
  - now rewrite (H x Hq).
  - now rewrite IH.
Qed.

Lemma length_update_one q (f : A -> A) l :
  length (Api.update_one q f l) = length l.
Proof.
  induction l as [|x l IH]; simpl; [reflexivity|].
  destruct (q x); simpl; congruence.
Qed.

Lemma Forall_update_one (P : A -> Prop) q (f : A -> A) l :
  (forall x, P x -> P (f x)) -> Forall P l -> Forall P (Api.update_one q f l).
Proof.
  intros Hf. induction 1 as [|x l Hx Hl IH]; simpl; [constructor|].
  destruct (q x); constructor; auto.
Qed.

Lemma In_delete_one q l x : In x (Api.delete_one q l) -> In x l.
Proof.
  induction l as [|y l IH]; simpl; [tauto|].
  destruct (q y); simpl; [tauto|]. intros [H | H]; auto.
Qed.

Lemma Forall_delete_one (P : A -> Prop) q l :
  Forall P l -> Forall P (Api.delete_one q l).
Proof.
  rewrite !Forall_forall. intros H x Hx. apply H. now apply In_delete_one in Hx.
Qed.

End Collections.

Lemma has_id_eq document_id d :
  Api.has_id document_id d = true <-> Document.id d = document_id.
Proof. unfold Api.has_id. apply String.eqb_eq. Qed.

Lemma has_collaborator_In user_id d :
  Api.has_collaborator user_id d = true <-> In user_id (Document.collaborators d).
Proof. unfold Api.has_collaborator. apply mem_key_In. Qed.

Lemma has_id_set_fields document_id title content now d :
  Api.has_id document_id (Api.set_fields title content now d)
  = Api.has_id document_id d.
Proof. reflexivity. Qed.

Lemma find_has_id_none document_id (l : list Document.t) :
  ~ In document_id (map Document.id l) -> find (Api.has_id document_id) l = None.
Proof.
  intros H. destruct (find (Api.has_id document_id) l) as [d|] eqn:E; [|reflexivity].
  apply find_some in E as [Hin Hid]. apply has_id_eq in Hid.
  exfalso. apply H. apply in_map_iff. now exists d.
Qed.

Lemma find_delete_one_same document_id (l : list Document.t) :
  NoDup (map Document.id l) ->
  find (Api.has_id document_id) (Api.delete_one (Api.has_id document_id) l) = None.
Proof.
  induction l as [|d l IH]; simpl; [reflexivity|].
  intros Hnd. inversion Hnd as [|? ? Hd Hl]; subst.
  destruct (Api.has_id document_id d) eqn:E; simpl.
  - apply has_id_eq in E. subst. now apply find_has_id_none.
  - rewrite E. now apply IH.
Qed.

Lemma has_id_other document_id other d :
  other <> document_id ->
  Api.has_id document_id d = true -> Api.has_id other d = false.
Proof.
  intros Hne H. apply has_id_eq in H. unfold Api.has_id.
  apply String.eqb_neq. congruence.
Qed.

(** X12: [get_document] answers a document only to one of its collaborators,
    and the document it answers is a stored one with the identifier asked
    for. *)
Theorem get_document_only_for_collaborators document_id current_user db d :
  Api.get_document document_id current_user db = inl d ->
  In d (documents db)
  /\ Document.id d = document_id
  /\ In (User.id current_user) (Document.collaborators d).
Proof.
  unfold Api.get_document.
  destruct (find (Api.has_id document_id) (documents db)) as [d0|] eqn:E;
    [|discriminate].
  destruct (Api.has_collaborator (User.id current_user) d0) eqn:Hc; simpl;
    [|discriminate].
  intros [= <-]. apply find_some in E as [Hin Hid].
  split; [exact Hin | split; [now apply has_id_eq | now apply has_collaborator_In]].
Qed.

Lemma get_document_only_for_collaborators_witness :
  In (Document.Build "d1" "Notes" "hello" "u1" 30 31 ["u1"]) (documents Api.demo_db)
  /\ Document.id (Document.Build "d1" "Notes" "hello" "u1" 30 31 ["u1"]) = "d1"
  /\ In (User.id Api.alice)
       (Document.collaborators (Document.Build "d1" "Notes" "hello" "u1" 30 31 ["u1"])).
Proof.
  apply (get_document_only_for_collaborators "d1" Api.alice Api.demo_db).
  reflexivity.
Defined.

(** X13: the three ways [update_document] ends.  No document has the
    identifier: 404, the database untouched.  The caller is not one of the
    collaborators: 403, the database untouched.  Otherwise the first
    document with the identifier gets the given title and content (a field
    given as [None] keeps its value) and the new [updated_at], keeps its
    identifier, creator, creation time and collaborators, is the document
    answered and the one found afterwards; the users, the number of
    documents and the documents with another identifier are as before.  The
    route never answers 500. *)
Theorem update_document_outcomes document_id title content current_user now db :
  (find (Api.has_id document_id) (documents db) = None
   /\ Api.update_document document_id title content current_user now db
      = (db, inr (HTTPException 404 "Document not found")))
  \/ (exists d,
        find (Api.has_id document_id) (documents db) = Some d
        /\ ~ In (User.id current_user) (Document.collaborators d)
        /\ Api.update_document document_id title content current_user now db
           = (db, inr (HTTPException 403 "Access denied")))
  \/ (exists d db',
        find (Api.has_id document_id) (documents db) = Some d
        /\ In (User.id current_user) (Document.collaborators d)
        /\ Api.update_document document_id title content current_user now db
           = (db', inl (Api.set_fields title content now d))
        /\ find (Api.has_id document_id) (documents db')
           = Some (Api.set_fields title content now d)
        /\ users db' = users db
        /\ length (documents db') = length (documents db)
        /\ forall other,
             other <> document_id ->
             find (Api.has_id other) (documents db')
             = find (Api.has_id other) (documents db)).
Proof.
  unfold Api.update_document.
  destruct (find (Api.has_id document_id) (documents db)) as [d|] eqn:E.
  - right.
    destruct (Api.has_collaborator (User.id current_user) d) eqn:Hc; simpl.
    + right.
      assert (Hf : find (Api.has_id document_id)
                     (Api.update_one (Api.has_id document_id)
                        (Api.set_fields title content now) (documents db))
                   = Some (Api.set_fields title content now d)).
      { rewrite find_update_one_same, E by (intros; apply has_id_set_fields).
        reflexivity. }
      exists d,
        {| users := users db;
           documents := Api.update_one (Api.has_id document_id)
                          (Api.set_fields title content now) (documents db) |}.
      simpl. rewrite Hf.
      split; [reflexivity|]. split; [now apply has_collaborator_In|].
      split; [reflexivity|]. split; [reflexivity|]. split; [reflexivity|].
      split; [apply length_update_one|].
      intros other Hne. apply find_update_one_other.
      * intros; apply has_id_set_fields.
      * intros x. now apply has_id_other.
    + left. exists d. split; [reflexivity|]. split; [|reflexivity].
      rewrite <- has_collaborator_In. congruence.
  - left. split; reflexivity.
Qed.

(** X14: [delete_document] succeeds only for the creator of the document.
    When the identifiers of the stored documents are distinct, the document
    is gone afterwards ([get_document] answers 404 to everyone), and the
    users and the documents with another identifier are as before. *)
Theorem delete_document_removes_for_creator document_id current_user db db' message :
  NoDup (map Document.id (documents db)) ->
  Api.delete_document document_id current_user db = (db', inl message) ->
  (exists d,
      find (Api.has_id document_id) (documents db) = Some d
      /\ Document.created_by d = User.id current_user)
  /\ (forall anyone,
        Api.get_document document_id anyone db'
        = inr (HTTPException 404 "Document not found"))
  /\ users db' = users db
  /\ forall other,
       other <> document_id ->
       find (Api.has_id other) (documents db') = find (Api.has_id other) (documents db).
Proof.
  intros Hnd. unfold Api.delete_document.
  destruct (find (Api.has_id document_id) (documents db)) as [d|] eqn:E;
    [|discriminate].
  destruct (String.eqb_spec (Document.created_by d) (User.id current_user))
    as [Hc|Hc]; simpl; [|discriminate].
  intros [= <- _]. simpl.
  split; [now exists d|]. split.
  - intros anyone. unfold Api.get_document; simpl.
    now rewrite find_delete_one_same.
  - split; [reflexivity|]. intros other Hne. apply find_delete_one_other.
    intros x. now apply has_id_other.
Qed.

Lemma delete_document_removes_for_creator_witness :
  (exists d,
      find (Api.has_id "d2") (documents Api.demo_db) = Some d
      /\ Document.created_by d = User.id Api.bob)
  /\ (forall anyone,
        Api.get_document "d2" anyone (fst (Api.delete_document "d2" Api.bob Api.demo_db))
        = inr (HTTPException 404 "Document not found"))
  /\ users (fst (Api.delete_document "d2" Api.bob Api.demo_db)) = users Api.demo_db
  /\ forall other,
       other <> "d2" ->
       find (Api.has_id other)
         (documents (fst (Api.delete_document "d2" Api.bob Api.demo_db)))
       = find (Api.has_id other) (documents Api.demo_db).
Proof.
  apply (delete_document_removes_for_creator "d2" Api.bob Api.demo_db _
           "Document deleted successfully").
  - repeat constructor; simpl; intuition discriminate.
  - reflexivity.
Defined.

(** X15: a document created under an identifier no stored document has is
    answered to its creator by [get_document] as it was created: empty
    content, the creator as its only collaborator.  Whatever the identifier,
    the documents stored before are found as before. *)
Theorem create_then_get title current_user new_id created updated db :
  ~ In new_id (map Document.id (documents db)) ->
  Api.get_document new_id current_user
    (fst (Api.create_document title current_user new_id created updated db))
  = inl (snd (Api.create_document title current_user new_id created updated db))
  /\ snd (Api.create_document title current_user new_id created updated db)
     = Document.Build new_id title EmptyString (User.id current_user) created updated
         [User.id current_user]
  /\ forall other d,
       find (Api.has_id other) (documents db) = Some d ->
       find (Api.has_id other)
         (documents (fst (Api.create_document title current_user new_id created
                            updated db)))
       = Some d.
Proof.
  intros Hfresh. unfold Api.create_document, Api.get_document; simpl.
  split; [|split; [reflexivity|]].
  - rewrite find_app_last, (find_has_id_none _ _ Hfresh).
    unfold Api.has_id at 1; simpl. rewrite String.eqb_refl.
    unfold Api.has_collaborator; simpl. now rewrite String.eqb_refl.
  - intros other d H. now rewrite find_app_last, H.
Qed.

Lemma create_then_get_witness :
  Api.get_document "d3" Api.bob
    (fst (Api.create_document "Draft" Api.bob "d3" 50 51 Api.demo_db))
  = inl (Document.Build "d3" "Draft" EmptyString "u2" 50 51 ["u2"]).
Proof.
  refine (proj1 (create_then_get "Draft" Api.bob "d3" 50 51 Api.demo_db _)).
  simpl. intuition discriminate.
Defined.

Lemma handle_keeps_sole_collaborator r db :
  Forall sole_collaborator (documents db) ->
  Forall sole_collaborator (documents (Api.handle r db)).
Proof.
  intros H. destruct r; simpl.
  - unfold Api.register. now destruct (find _ (users db)).
  - apply Forall_app. split; [exact H|]. repeat constructor.
  - unfold Api.update_document.
    destruct (find (Api.has_id document_id) (documents db)) as [d|]; [|exact H].
    destruct (negb (Api.has_collaborator (User.id current_user) d)); [exact H|].
    assert (H' : Forall sole_collaborator
                   (Api.update_one (Api.has_id document_id)
                      (Api.set_fields title content now) (documents db)))
      by (apply Forall_update_one; auto).
    simpl. now destruct (find _ _).
  - unfold Api.delete_document.
    destruct (find (Api.has_id document_id) (documents db)) as [d|]; [|exact H].
    destruct (negb (String.eqb (Document.created_by d) (User.id current_user)));
      [exact H|].
    simpl. now apply Forall_delete_one.
Qed.

Lemma sole_collaborator_after history :
  Forall sole_collaborator (documents (Api.db_after history)).
Proof.
  unfold Api.db_after.
  assert (H : Forall sole_collaborator (documents Api.empty)) by constructor.
  revert H. generalize Api.empty.
  induction history as [|r history IH]; intros db H; simpl; [exact H|].
  apply IH. now apply handle_keeps_sole_collaborator.
Qed.

(** X16: no route adds a collaborator.  After any history of register,
    create, update and delete calls on an empty database, the collaborators
    of every stored document are its creator alone, so that [get_document]
    answers a document to its creator only. *)
Theorem collaborators_are_the_creator history :
  Forall (fun d => Document.collaborators d = [Document.created_by d])
    (documents (Api.db_after history))
  /\ forall document_id current_user d,
       Api.get_document document_id current_user (Api.db_after history) = inl d ->
       User.id current_user = Document.created_by d.
Proof.
  pose proof (sole_collaborator_after history) as H. split; [exact H|].
  intros document_id current_user d Hg. unfold Api.get_document in Hg.
  destruct (find (Api.has_id document_id) (documents (Api.db_after history)))
    as [d0|] eqn:E; [|discriminate].
  destruct (Api.has_collaborator (User.id current_user) d0) eqn:Hc; simpl in Hg;
    [|discriminate].
  injection Hg as <-. apply find_some in E as [Hin _].
  rewrite Forall_forall in H. specialize (H _ Hin). unfold sole_collaborator in H.
  apply has_collaborator_In in Hc. rewrite H in Hc.
  destruct Hc as [Hc | []]. now symmetry.
Qed.

(** X17: with the document store answering from a database the routes have
    built, the websocket endpoint accepts a stream only for the creator of
    the document: the user id of the token is the [created_by] of the
    document of that room. *)
Theorem only_creator_is_admitted history w websocket document_id token now inbound self :
  find_document w document_id = Api.store_answer (Api.db_after history) document_id ->
  In (Accept websocket)
    (effects (websocket_endpoint w websocket document_id token now inbound self)) ->
  exists t user_id username d,
    token = Some t
    /\ jwt_decode w t = JwtPayload (Some user_id) (Some username)
    /\ find (Api.has_id document_id) (documents (Api.db_after history)) = Some d
    /\ user_id = Document.created_by d.
Proof.
  intros Hstore Hacc.
  destruct (accept_conditions _ _ _ _ _ _ _ Hacc)
    as (t & u & n & collaborators & -> & _ & Hj & _ & _ & Hd & Hin & _).
  rewrite Hstore in Hd. unfold Api.store_answer in Hd.
  destruct (find (Api.has_id document_id) (documents (Api.db_after history)))
    as [d|] eqn:E; [|discriminate].
  injection Hd as <-. exists t, u, n, d.
  split; [reflexivity|]. split; [exact Hj|]. split; [reflexivity|].
  apply find_some in E as [Hd _].
  pose proof (sole_collaborator_after history) as H.
  rewrite Forall_forall in H. specialize (H _ Hd). unfold sole_collaborator in H.
  rewrite H in Hin. destruct Hin as [Hin | []]. now symmetry.
Qed.

Lemma only_creator_is_admitted_witness :
  exists t user_id username d,
    Some "alice" = Some t
    /\ jwt_decode
         (Api.world_over (Api.db_after [Api.CreateDocument "Notes" Api.alice "D" 30 31]))
         t = JwtPayload (Some user_id) (Some username)
    /\ find (Api.has_id "D")
         (documents (Api.db_after [Api.CreateDocument "Notes" Api.alice "D" 30 31]))
       = Some d
    /\ user_id = Document.created_by d.
Proof.
  apply (only_creator_is_admitted
           [Api.CreateDocument "Notes" Api.alice "D" 30 31]
           (Api.world_over (Api.db_after [Api.CreateDocument "Notes" Api.alice "D" 30 31]))
           1 "D" (Some "alice") "t1" [] manager).
  - reflexivity.
  - vm_compute. now left.
Defined.

Lemma has_username_eq username u :
  Api.has_username username u = true <-> User.username (fst u) = username.
Proof. unfold Api.has_username. apply String.eqb_eq. Qed.

Lemma find_has_username_none username db :
  find (Api.has_username username) (users db) = None <-> ~ In username (usernames db).
Proof.
  unfold usernames. split.
  - intros H Hin. apply in_map_iff in Hin as [u [Hu Hin]].
    apply (find_none _ _ H) in Hin. apply has_username_eq in Hu. congruence.
  - intros H. destruct (find (Api.has_username username) (users db)) as [u|] eqn:E;
      [|reflexivity].
    apply find_some in E as [Hin Hu]. apply has_username_eq in Hu.
    exfalso. apply H. apply in_map_iff. now exists u.
Qed.

Lemma handle_keeps_usernames_distinct r db :
  NoDup (usernames db) -> NoDup (usernames (Api.handle r db)).
Proof.
  intros H. destruct r; simpl.
  - unfold Api.register.
    destruct (find (Api.has_username username) (users db)) eqn:E; [exact H|].
    apply find_has_username_none in E.
    unfold usernames in *; simpl. rewrite map_app; simpl.
    apply NoDup_app; auto.
    + repeat constructor. simpl; tauto.
    + intros x Hx [<- | []]. contradiction.
  - exact H.
  - unfold Api.update_document.
    destruct (find (Api.has_id document_id) (documents db)) as [d|]; [|exact H].
    destruct (negb (Api.has_collaborator (User.id current_user) d)); [exact H|].
    simpl. now destruct (find _ _).
  - unfold Api.delete_document.
    destruct (find (Api.has_id document_id) (documents db)) as [d|]; [|exact H].
    now destruct (negb (String.eqb (Document.created_by d) (User.id current_user))).
Qed.

(** X18: user names stay distinct.  After any history of calls on an empty
    database no two stored users have the same user name, and a [register]
    under a name that is taken answers 400 and stores nothing. *)
Theorem usernames_stay_distinct history :
  NoDup (usernames (Api.db_after history))
  /\ forall c username password new_id salt created issued,
       In username (usernames (Api.db_after history)) ->
       Api.register c username password new_id salt created issued (Api.db_after history)
       = (Api.db_after history, inr (HTTPException 400 "Username already exists")).
Proof.
  split.
  - unfold Api.db_after.
    assert (H : NoDup (usernames Api.empty)) by constructor.
    revert H. generalize Api.empty.
    induction history as [|r history IH]; intros db H; simpl; [exact H|].
    apply IH. now apply handle_keeps_usernames_distinct.
  - intros c username password new_id salt created issued Hin.
    unfold Api.register.
    destruct (find (Api.has_username username) (users (Api.db_after history)))
      eqn:E; [reflexivity|].
    apply find_has_username_none in E. contradiction.
Qed.

(** X19: [login] answers a token only for a stored user with that user name
    whose stored hash [bcrypt] accepts for the password; the token is the
    one [create_jwt_token] makes for that user.  Every refusal is
    the same 401, whether the user name is unknown or the password wrong. *)
Theorem login_checks_the_stored_hash c username password issued db :
  (forall token,
      Api.login c username password issued db = inl token ->
      exists hashed,
        In (Token.user token, hashed) (users db)
        /\ User.username (Token.user token) = username
        /\ checkpw c password hashed = true
        /\ Token.access_token token
           = Api.create_jwt_token c (User.id (Token.user token)) username issued)
  /\ (forall e,
        Api.login c username password issued db = inr e ->
        e = HTTPException 401 "Invalid username or password").
Proof.
  unfold Api.login.
  destruct (find (Api.has_username username) (users db)) as [[user hashed]|] eqn:E.
  - apply find_some in E as [Hin Hu]. apply has_username_eq in Hu. simpl in *.
    destruct (Api.verify_password c password hashed) eqn:Hv.
    + split; [|discriminate]. intros token [= <-]. exists hashed. simpl.
      split; [exact Hin|]. split; [exact Hu|]. split; [exact Hv|].
      rewrite Hu. reflexivity.
    + split; [discriminate|]. now intros e [= <-].
  - split; [discriminate|]. now intros e [= <-].
Qed.

(** X20: a user who has just registered under a free user name can log in
    with the same password, provided [bcrypt.checkpw] accepts a password
    against its own hash, and gets a token for the user that was stored. *)
Theorem register_then_login c username password new_id salt created issued issued' db :
  ~ In username (usernames db) ->
  checkpw c password (hashpw c password salt) = true ->
  Api.login c username password issued'
    (fst (Api.register c username password new_id salt created issued db))
  = inl (Token.Build (Api.create_jwt_token c new_id username issued') "bearer"
           (User.Build new_id username created))
  /\ usernames (fst (Api.register c username password new_id salt created issued db))
     = usernames db ++ [username].
Proof.
  intros Hfree Hcheck. apply find_has_username_none in Hfree.
  unfold Api.register. rewrite Hfree. simpl. split.
  - unfold Api.login; simpl. rewrite find_app_last, Hfree.
    unfold Api.has_username at 1; simpl. rewrite String.eqb_refl. simpl.
    unfold Api.verify_password, Api.hash_password. now rewrite Hcheck.
  - unfold usernames; simpl. now rewrite map_app.
Qed.

Lemma register_then_login_witness :
  Api.login Api.demo_crypto "carol" "pw-c" 200
    (fst (Api.register Api.demo_crypto "carol" "pw-c" "u3" "s3" 100 101 Api.demo_db))
  = inl (Token.Build "u3.carol" "bearer" (User.Build "u3" "carol" 100)).
Proof.
  refine (proj1 (register_then_login Api.demo_crypto "carol" "pw-c" "u3" "s3"
                   100 101 200 Api.demo_db _ _)).
  - simpl. intuition discriminate.
  - vm_compute. reflexivity.
Defined.

(** X21: [get_current_user] answers a user only when the token decodes to a
    non-empty user id that a stored user has, and answers that stored user.
    It refuses with a 401 an expired token, a token without a user id and a
    user id no stored user has; a token that does not decode leaves it with
    the [AttributeError] of [decode_jwt_token], which is no 401. *)
Theorem current_user_is_a_stored_user w token db :
  (forall user,
      Api.get_current_user w token db = inl user ->
      exists username hashed,
        jwt_decode w token = JwtPayload (Some (User.id user)) username
        /\ User.id user <> EmptyString
        /\ In (user, hashed) (users db))
  /\ (forall e,
        Api.get_current_user w token db = inr e ->
        (jwt_decode w token = JwtExpired
         /\ e = HTTPException 401 "Token expired")
        \/ (jwt_decode w token = JwtInvalid /\ e = AttributeError)
        \/ (exists user_id username,
              jwt_decode w token = JwtPayload user_id username
              /\ truthy user_id = false
              /\ e = HTTPException 401 "Invalid token payload")
        \/ (exists user_id username,
              jwt_decode w token = JwtPayload (Some user_id) username
              /\ user_id <> EmptyString
              /\ find (Api.has_user_id user_id) (users db) = None
              /\ e = HTTPException 401 "User not found")).
Proof.
  unfold Api.get_current_user, decode_jwt_token.
  destruct (jwt_decode w token) as [user_id username | |].
  - destruct (truthy user_id) eqn:Ht; simpl.
    + destruct (truthy_inv _ Ht) as [u [-> Hne]]. cbn [text_of].
      destruct (find (Api.has_user_id u) (users db)) as [[user hashed]|] eqn:E.
      * split; [|discriminate]. intros x [= <-].
        apply find_some in E as [Hin Hid]. unfold Api.has_user_id in Hid.
        apply String.eqb_eq in Hid. simpl in Hid. subst u.
        exists username, hashed. now repeat split.
      * split; [discriminate|]. intros e [= <-].
        right. right. right. exists u, username. now repeat split.
    + split; [discriminate|]. intros e [= <-].
      right. right. left. exists user_id, username. now repeat split.
  - split; [discriminate|]. intros e [= <-]. left. now split.
  - split; [discriminate|]. intros e [= <-]. right. left. now split.
Qed.

Lemma In_firstn {A} n (l : list A) x : In x (firstn n l) -> In x l.
Proof.
  intros H. rewrite <- (firstn_skipn n l). apply in_or_app. now left.
Qed.

(** X22: [get_documents] answers stored documents that have the caller among
    their collaborators, at most 100 of them, and all of them when the caller
    has no more than 100. *)
Theorem get_documents_lists_own_documents current_user db :
  (forall d,
      In d (Api.get_documents current_user db) ->
      In d (documents db) /\ In (User.id current_user) (Document.collaborators d))
  /\ length (Api.get_documents current_user db) <= 100
  /\ (length (filter (Api.has_collaborator (User.id current_user)) (documents db))
      <= 100 ->
      forall d,
        In d (documents db) ->
        In (User.id current_user) (Document.collaborators d) ->
        In d (Api.get_documents current_user db)).
Proof.
  unfold Api.get_documents. split; [|split].
  - intros d H. apply In_firstn in H. apply filter_In in H as [Hin Hc].
    split; [exact Hin | now apply has_collaborator_In].
  - apply firstn_le_length.
  - intros Hlen d Hin Hc. rewrite firstn_all2 by exact Hlen.
    apply filter_In. split; [exact Hin | now apply has_collaborator_In].
Qed.
